(** * vscode-phpstan: the analysis runner and the result mapper

    A shallow embedding of [src/extension.ts] (and of the two constants of
    [src/utils.ts]) together with the properties of the diagnostic store
    that the specification states.

    Conventions of the embedding.
    - A JavaScript string is a [string]; its [length] is [String.length].
    - A JavaScript number that the code handles (a line number, a counter)
      is an integer, a [Z].
      Arithmetic on it is exact for safe integers, and a safe integer is
      printed as its decimal digits; the properties that depend on either
      say so.
    - The [vscode.DiagnosticCollection] is a finite map from the key under
      which it files the URI that [vscode.Uri.file] builds from a path to
      the array of diagnostics stored under it.
    - The host API ([vscode.*]), [execa] and [JSON.parse] are outside the
      repository: what they answer is a parameter of the model. Of the
      host's constructors, [new vscode.Diagnostic] throws a [TypeError] on
      an empty message. *)

From Stdlib Require Import ZArith Ascii String.
From stdpp Require Import base gmap strings list fin_maps pretty.

Local Open Scope Z_scope.

(** ** JavaScript string primitives used by the extension *)

Module JS.

(** Truthiness of a string: only the empty string is falsy. *)
Definition truthy (s : string) : bool :=
  match s with
  | EmptyString => false
  | String _ _ => true
  end.

(** Truthiness of a value that is a string, [null] or [undefined]. *)
Definition truthy_opt (o : option string) : bool :=
  match o with
  | Some s => truthy s
  | None => false
  end.

(** [strip_prefix p s] is [Some r] when [s = p ++ r]. *)
Fixpoint strip_prefix (p s : string) : option string :=
  match p with
  | EmptyString => Some s
  | String a p' =>
      match s with
      | EmptyString => None
      | String b s' => if Ascii.eqb a b then strip_prefix p' s' else None
      end
  end.

(** The first occurrence of [pat] in [s], as the text before it and the
    text after it; [None] when [pat] does not occur. The empty pattern
    occurs at position 0. *)
Fixpoint split_first (pat s : string) : option (string * string) :=
  match strip_prefix pat s with
  | Some after => Some (EmptyString, after)
  | None =>
      match s with
      | EmptyString => None
      | String c s' =>
          match split_first pat s' with
          | Some (before, after) => Some (String c before, after)
          | None => None
          end
      end
  end.

(** ECMAScript [GetSubstitution] for a string pattern (no capture groups,
    no named groups): in the replacement text [$$] stands for a dollar,
    [$&] for the matched text, [$`] for the text before the match and
    [$'] for the text after it; every other character, a dollar followed
    by a digit or by [<] included, is copied. *)
Fixpoint GetSubstitution (matched before after template : string) : string :=
  match template with
  | EmptyString => EmptyString
  | String c t =>
      if Ascii.eqb c "$" then
        match t with
        | EmptyString => String c EmptyString
        | String d t' =>
            if Ascii.eqb d "$" then
              String "$" (GetSubstitution matched before after t')
            else if Ascii.eqb d "&" then
              matched +:+ GetSubstitution matched before after t'
            else if Ascii.eqb d "`" then
              before +:+ GetSubstitution matched before after t'
            else if Ascii.eqb d "'" then
              after +:+ GetSubstitution matched before after t'
            else String c (GetSubstitution matched before after t)
        end
      else String c (GetSubstitution matched before after t)
  end.

(** [String.prototype.replace] with a string pattern: the first
    occurrence only; the subject is returned as it is when the pattern
    does not occur. *)
Definition replace (s pat replacement : string) : string :=
  match split_first pat s with
  | Some (before, after) =>
      before +:+ GetSubstitution pat before after replacement +:+ after
  | None => s
  end.

(** The replacement text holds no dollar sign. *)
Fixpoint dollar_free (s : string) : bool :=
  match s with
  | EmptyString => true
  | String c s' => negb (Ascii.eqb c "$") && dollar_free s'
  end.

(** The replacement text holds none of the patterns that [replace]
    expands: no dollar followed by a dollar, an ampersand, a backtick or
    an apostrophe. *)
Fixpoint pattern_free (s : string) : bool :=
  match s with
  | EmptyString => true
  | String c t =>
      (if Ascii.eqb c "$" then
         match t with
         | EmptyString => true
         | String d _ =>
             negb (Ascii.eqb d "$" || Ascii.eqb d "&"
                   || Ascii.eqb d "`" || Ascii.eqb d "'")
         end
       else true)
      && pattern_free t
  end.

(** Template-literal rendering of an integer: its decimal digits (as
    JavaScript prints a safe integer). *)
Definition number_to_string (n : Z) : string := pretty n.

(** The value of a decimal digit. *)
Definition digit_value (c : ascii) : option Z :=
  let n := Z.of_N (N_of_ascii c) in
  if (48 <=? n) && (n <=? 57) then Some (n - 48) else None.

(** The number that a string of decimal digits writes, read from the left
    with [acc] as the value of the digits read so far. *)
Fixpoint decimal_value_from (acc : Z) (s : string) : option Z :=
  match s with
  | EmptyString => Some acc
  | String c s' =>
      match digit_value c with
      | Some d => decimal_value_from (10 * acc + d) s'
      | None => None
      end
  end.

(** The number that a non-empty string of decimal digits writes. *)
Definition decimal_value (s : string) : option Z :=
  match s with
  | EmptyString => None
  | String _ _ => decimal_value_from 0 s
  end.

(** The string starts with the digit 0. *)
Definition leading_zero (s : string) : bool :=
  match s with
  | EmptyString => false
  | String c _ => Ascii.eqb c "0"
  end.

(** [Number.isSafeInteger]: the integers on which the arithmetic of
    JavaScript numbers is exact. *)
Definition safe_integer (n : Z) : Prop :=
  - (2 ^ 53 - 1) <= n <= 2 ^ 53 - 1.

(** [Math.max(a, b)] on integers. *)
Definition Math_max (a b : Z) : Z := Z.max a b.

End JS.

(** ** utils.ts *)

Definition PACKAGE_NAME : string := "phpstan".
Definition PACKAGE_TITLE : string := "Phpstan".

(** The settings read through [utils.config.get]. *)
Record Config := {
  phpCommand : string;
  command : string;
  watchGlob : string;
  dockerVolumePath : string
}.

(** ** The host editor's data *)

Record Position := { line_of : Z; character_of : Z }.

Record Range := { range_start : Position; range_end : Position }.

Inductive DiagnosticSeverity :=
| SeverityError
| SeverityWarning
| SeverityInformation
| SeverityHint.

(** [diagnostic.code]: the rule identifier and the text handed to
    [vscode.Uri.parse]. *)
Record DiagnosticCode := { code_value : string; code_target : string }.

Record Diagnostic := {
  diag_range : Range;
  diag_message : string;
  diag_severity : DiagnosticSeverity;
  diag_source : string;
  diag_code : DiagnosticCode
}.

(** The diagnostic collection, by the key of a URI. *)
Abbreviation Store := (gmap string (list Diagnostic)).

(** What the user sees of a pass. *)
Inductive UiEvent :=
| ProgressReport (message : option string) (increment : Z)
| ShowErrorMessage (text : string).

(** ** The tool's report, as [JSON.parse] returns it *)

(** One element of [messages], with the type the source casts it to. *)
Record Violation := {
  message : string;
  line : Z;
  identifier : string;
  ignorable : bool
}.

(** The [messages] property of a file entry. *)
Inductive MessagesField :=
| NoMessages                      (* the key is absent *)
| NullMessages                    (* "messages": null, which is not iterable *)
| Messages (l : list Violation).

(** A value of the [files] object. *)
Inductive FileData :=
| FileNull                        (* null: fails the test on [fileData] *)
| FileObject (m : MessagesField).

Record Totals := { file_errors : option Z }.

(** [files] is [None] when [Object.keys(output.files)] throws (no such key,
    as in the default ["{}"], or a null); otherwise it lists the entries in
    enumeration order. *)
Record Report := {
  files : option (list (string * FileData));
  totals : option Totals
}.

(** ** How a promise settles *)

Inductive JsError := SyntaxError | TypeError.

(** [Resolved None] is a promise resolved with [undefined]. *)
Inductive Settled :=
| Resolved (v : option bool)
| Rejected (e : JsError).

(** The outcome of a pass: the store it leaves, what it showed, and how the
    returned promise settled. *)
Record Pass := {
  store : Store;
  ui : list UiEvent;
  settled : Settled
}.

(** What [await execa(...)] does. *)
Inductive ExecResult :=
| ExecOk (stdout : string)
| ExecaError (stdout stderr : option string)
| OtherError (error_message : string).

(** ** extension.ts *)

Section Extension.

(** The module-level state of the extension ([ws], [utils.config]) and
    its environment: the parser and the subprocess, which answers a
    command line. *)
Variable ws : string.
Variable config : Config.
Variable JSON_parse : string -> option Report.
Variable execa : string -> ExecResult.

(** [vscode.Uri.file]: the key under which the collection files the URI of
    a path. Two paths may have the same key. *)
Variable Uri_file : string -> string.

(** [progress?.report({message, increment})]. *)
Definition progress_report (progress : bool) (msg : option string)
    (increment : Z) : list UiEvent :=
  if progress then [ProgressReport msg increment] else [].

(** [filePath ? a : b] on a path that may be [null]. *)
Definition prepareCommand (filePath : option string) : string :=
  match filePath with
  | Some path =>
      if JS.truthy path
      then phpCommand config +:+ " " +:+ command config +:+ " "
             +:+ JS.replace path ws "."
      else phpCommand config +:+ " " +:+ command config
  | None => phpCommand config +:+ " " +:+ command config
  end.

(** The record that the body of the loop over [messages] assembles. *)
Definition record_of (msg : Violation) : Diagnostic :=
  let line := JS.Math_max 0 (line msg - 1) in
  {| diag_range :=
       {| range_start := {| line_of := line; character_of := 0 |};
          range_end :=
            {| line_of := line;
               character_of := Z.of_nat (String.length (message msg)) |} |};
     diag_message := message msg;
     diag_severity := SeverityError;
     diag_source := PACKAGE_TITLE;
     diag_code :=
       {| code_value := identifier msg;
          code_target :=
            "https://phpstan.org/error-identifiers/" +:+ identifier msg |} |}.

(** The body of the loop over [messages]: [new vscode.Diagnostic] throws
    when the message is empty. *)
Definition to_diagnostic (msg : Violation) : JsError + Diagnostic :=
  if JS.truthy (message msg) then inr (record_of msg) else inl TypeError.

(** The loop over [messages], which stops at the first exception. *)
Fixpoint to_diagnostics (messages : list Violation) : JsError + list Diagnostic :=
  match messages with
  | [] => inr []
  | msg :: rest =>
      match to_diagnostic msg with
      | inl e => inl e
      | inr d =>
          match to_diagnostics rest with
          | inl e => inl e
          | inr ds => inr (d :: ds)
          end
      end
  end.

(** [fileDiagnostics] for one entry of [files]; iterating over a null
    [messages] throws. *)
Definition fileDiagnostics (fileData : FileData)
    : JsError + list Diagnostic :=
  match fileData with
  | FileNull => inr []
  | FileObject NoMessages => inr []
  | FileObject NullMessages => inl TypeError
  | FileObject (Messages l) => to_diagnostics l
  end.

(** The key under which a reported path is stored. *)
Definition store_key (filePath : string) : string :=
  JS.replace filePath (dockerVolumePath config) ws.

(** A key of the collection is flagged by a report when one of its entries
    with at least one violation is stored under that key. *)
Definition flagged (entries : list (string * FileData)) (key : string) : Prop :=
  exists filePath l,
    (filePath, FileObject (Messages l)) ∈ entries /\ l <> [] /\
    Uri_file (store_key filePath) = key.

(** [Map.prototype.set] on a map of strings, as the list of its entries in
    insertion order: a key that is present keeps its place. *)
Fixpoint Map_set (key : string) (value : list Diagnostic)
    (m : list (string * list Diagnostic)) : list (string * list Diagnostic) :=
  match m with
  | [] => [(key, value)]
  | (k, v) :: rest =>
      if String.eqb k key then (key, value) :: rest
      else (k, v) :: Map_set key value rest
  end.

(** The first loop of [processOutput], filling [diagnosticsByFile]. *)
Fixpoint collect (entries : list (string * FileData))
    (diagnosticsByFile : list (string * list Diagnostic))
    : JsError + list (string * list Diagnostic) :=
  match entries with
  | [] => inr diagnosticsByFile
  | (filePath, fileData) :: rest =>
      match fileDiagnostics fileData with
      | inl e => inl e
      | inr ds =>
          collect rest
            (if (0 <? Z.of_nat (length ds))
             then Map_set (store_key filePath) ds diagnosticsByFile
             else diagnosticsByFile)
      end
  end.

(** The second loop: one [diagnosticCollection.set] per entry of
    [diagnosticsByFile], in insertion order. *)
Definition publish (diagnosticsByFile : list (string * list Diagnostic))
    (dc : Store) : Store :=
  fold_left
    (fun acc entry => <[Uri_file (fst entry) := snd entry]> acc)
    diagnosticsByFile dc.

(** What the last of a sequence of [set] calls on a key left there. *)
Fixpoint last_set (key : string) (sets : list (string * list Diagnostic))
    : option (list Diagnostic) :=
  match sets with
  | [] => None
  | (filePath, diagnostics) :: rest =>
      match last_set key rest with
      | Some ds => Some ds
      | None =>
          if String.eqb (Uri_file filePath) key then Some diagnostics else None
      end
  end.

(** [processOutput]: the store it leaves and how its promise settles. An
    exception inside the executor rejects the promise. *)
Definition processOutput (output : Report) (dc : Store) : Store * Settled :=
  match files output with
  | None => (dc, Rejected TypeError)
  | Some entries =>
      if (Z.of_nat (length entries) =? 0) then (dc, Resolved (Some false))
      else
        match collect entries [] with
        | inl e => (dc, Rejected e)
        | inr diagnosticsByFile =>
            (publish diagnosticsByFile dc, Resolved (Some true))
        end
  end.

(** [output.totals?.file_errors || 0]. *)
Definition violationCount (output : Report) : Z :=
  match totals output with
  | Some t =>
      match file_errors t with
      | Some n => if n =? 0 then 0 else n
      | None => 0
      end
  | None => 0
  end.

Definition status_message (output : Report) : string :=
  if 0 <? violationCount output
  then "found " +:+ JS.number_to_string (violationCount output) +:+ " violations"
  else "done".

(** [handle]: clear, map, and report the status whatever the outcome of
    the mapping ([finally]). *)
Definition handle (output : Report) (progress : bool) (dc : Store) : Pass :=
  let cleared : Store := ∅ in
  let msg := status_message output in
  let '(dc', s) := processOutput output cleared in
  {| store := dc';
     ui := progress_report progress (Some msg) 100;
     settled := s |}.

(** The [try]/[catch] around the invocation: either the pass ends there,
    with what it showed, or [output] is set. *)
Definition invoke (progress : bool) (r : ExecResult) : list UiEvent + string :=
  match r with
  | ExecOk stdout => inr stdout
  | ExecaError stdout stderr =>
      if JS.truthy_opt stderr && negb (JS.truthy_opt stdout) then
        inl (progress_report progress None 100
               ++ [ShowErrorMessage
                     (PACKAGE_TITLE +:+ ": " +:+ default EmptyString stderr)])
      else
        match stdout with
        | Some out => if JS.truthy out then inr out else inr "{}"%string
        | None => inr "{}"%string
        end
  | OtherError msg => inl (progress_report progress (Some msg) 100)
  end.

(** [filePath && diagnosticCollection.has(Uri.file(filePath))], evaluated
    before the subprocess is started. *)
Definition has_entry (filePath : option string) (dc : Store) : bool :=
  match filePath with
  | Some path => JS.truthy path && bool_decide (is_Some (dc !! Uri_file path))
  | None => false
  end.

Definition single_file (filePath : option string) : bool :=
  match filePath with
  | Some path => JS.truthy path
  | None => false
  end.

(** The report a pass works on, when the invocation yields one. *)
Definition report_of (progress : bool) (filePath : option string)
    : option Report :=
  match invoke progress (execa (prepareCommand filePath)) with
  | inl _ => None
  | inr text => JSON_parse text
  end.

(** [runAnalysis] from the [await] on: [check] was computed before it,
    [dc] is the store as the continuation finds it. *)
Definition runAnalysis_resume (check : bool) (progress : bool)
    (filePath : option string) (dc : Store) : Pass :=
  match invoke progress (execa (prepareCommand filePath)) with
  | inl shown => {| store := dc; ui := shown; settled := Resolved None |}
  | inr text =>
      match JSON_parse text with
      | None => {| store := dc; ui := []; settled := Rejected SyntaxError |}
      | Some output =>
          match files output with
          | None => {| store := dc; ui := []; settled := Rejected TypeError |}
          | Some entries =>
              let dc1 :=
                if (Z.of_nat (length entries) =? 0) && check
                then delete (Uri_file (default EmptyString filePath)) dc
                else dc in
              if single_file filePath
              then let '(dc', s) := processOutput output dc1 in
                   {| store := dc'; ui := []; settled := s |}
              else handle output progress dc1
          end
      end
  end.

(** [runAnalysis] when nothing else touches the store while the
    subprocess runs. *)
Definition runAnalysis (progress : bool) (filePath : option string)
    (dc : Store) : Pass :=
  runAnalysis_resume (has_entry filePath dc) progress filePath dc.

End Extension.

(** ** The command line as the specification words it *)

(** [filePath] with the workspace root prefix stripped. *)
Definition spec_relativeFilePath (ws filePath : string) : string :=
  default filePath (JS.strip_prefix ws filePath).

Definition spec_commandLine (ws : string) (config : Config)
    (filePath : option string) : string :=
  match filePath with
  | Some path =>
      phpCommand config +:+ " " +:+ command config +:+ " "
        +:+ spec_relativeFilePath ws path
  | None => phpCommand config +:+ " " +:+ command config
  end.

(** ** A concrete workspace *)

Module Scenario.

Definition root : string := "/home/user/proj".

Definition settings : Config :=
  {| phpCommand := "php";
     command := "vendor/bin/phpstan analyse --error-format=json";
     watchGlob := "phpstan.neon";
     dockerVolumePath := "/app" |}.

(** The same settings without a container path. *)
Definition local_settings : Config :=
  {| phpCommand := "php";
     command := "vendor/bin/phpstan analyse --error-format=json";
     watchGlob := "phpstan.neon";
     dockerVolumePath := "" |}.

Definition foo_reported : string := "/app/src/Foo.php".
Definition bar_reported : string := "/app/src/Bar.php".
Definition foo : string := "/home/user/proj/src/Foo.php".
Definition bar : string := "/home/user/proj/src/Bar.php".

Definition undefined_method : Violation :=
  {| message := "Undefined method.";
     line := 10;
     identifier := "method.notFound";
     ignorable := false |}.

(** The report of the end-to-end scenario. *)
Definition report : Report :=
  {| files := Some [(foo_reported, FileObject (Messages [undefined_method]))];
     totals := Some {| file_errors := Some 1 |} |}.

Definition record (l c : Z) : Diagnostic :=
  {| diag_range :=
       {| range_start := {| line_of := l; character_of := 0 |};
          range_end := {| line_of := l; character_of := c |} |};
     diag_message := "Undefined method.";
     diag_severity := SeverityError;
     diag_source := "Phpstan";
     diag_code :=
       {| code_value := "method.notFound";
          code_target :=
            "https://phpstan.org/error-identifiers/" +:+ "method.notFound" |} |}.

(** On this machine the URI of an absolute path is keyed by its text. *)
Definition file_uri (path : string) : string := "file://" +:+ path.

(** A store in which [foo] is flagged. *)
Definition flagged_store : Store := {[ file_uri foo := [record 9 17] ]}.

(** A report that lists [foo] with no violation. *)
Definition clean_report : Report :=
  {| files := Some [(foo_reported, FileObject (Messages []))];
     totals := Some {| file_errors := Some 0 |} |}.

(** A report with no file at all. *)
Definition empty_report : Report :=
  {| files := Some []; totals := Some {| file_errors := Some 0 |} |}.

(** A report about [bar] only. *)
Definition bar_report : Report :=
  {| files := Some [(bar_reported, FileObject (Messages [undefined_method]))];
     totals := Some {| file_errors := Some 1 |} |}.


(** A report with three violations counted. *)
Definition three_report : Report :=
  {| files := Some []; totals := Some {| file_errors := Some 3 |} |}.

(** A parser that reads every text as the given report. *)
Definition parses_as (r : Report) : string -> option Report := fun _ => Some r.

(** A tool that answers every command line the same way. *)
Definition answers (r : ExecResult) : string -> ExecResult := fun _ => r.

(** A tool that exits with code 0 and prints some text. *)
Definition prints : string -> ExecResult := answers (ExecOk "{...}").

(** A workspace folder whose name holds two dollar signs. *)
Definition dollar_root : string := "/home/user/my$$proj".

End Scenario.

(** ** The trigger surface of [activate] *)

(** The module-level state once the extension is active: [ws],
    [utils.config], the diagnostic collection, and the glob of the file
    watcher that [watchForConfigFileChanges] created. *)
Record Extension := {
  ext_ws : string;
  ext_config : Config;
  ext_collection : Store;
  ext_watchGlob : string
}.

(** What the host delivers to the registered handlers. For a change of
    configuration it also answers [event.affectsConfiguration(PACKAGE_NAME)]
    and [vscode.workspace.getConfiguration(PACKAGE_NAME)]. *)
Inductive Event :=
| DidChangeConfiguration (affects : bool) (current : Config)
| WatcherDidChange
| AnalyzeCommand
| DidSaveTextDocument (languageId fileName : string).

(** How [activate] ends: it returns at once without a workspace folder; it
    is rejected, before any handler is registered, when the first analysis
    is rejected; otherwise the handlers are registered. *)
Inductive Activation :=
| NoWorkspaceFolder
| ActivationRejected (e : JsError) (dc : Store)
| Activated (st : Extension).

Section Triggers.

Variable JSON_parse : string -> option Report.
Variable execa : string -> ExecResult.
Variable Uri_file : string -> string.

(** [progressAnalyze]: a whole-project pass with a progress object. The
    task resolves with [undefined] when the pass resolves, and
    [withProgress] returns the task's promise. *)
Definition progressAnalyze (ws : string) (config : Config) (dc : Store) : Pass :=
  let pass := runAnalysis ws config JSON_parse execa Uri_file true None dc in
  {| store := store pass;
     ui := ui pass;
     settled :=
       match settled pass with
       | Resolved _ => Resolved None
       | Rejected e => Rejected e
       end |}.

(** [activate], with [workspaceFolders] as the list of the folders' paths
    ([None] when no folder is open) and [current] the settings that
    [setConfig] reads. *)
Definition activate (workspaceFolders : option (list string)) (current : Config)
    : Activation * list UiEvent :=
  match workspaceFolders ≫= head with
  | None => (NoWorkspaceFolder, [])
  | Some folder =>
      let pass := progressAnalyze folder current ∅ in
      match settled pass with
      | Rejected e => (ActivationRejected e (store pass), ui pass)
      | Resolved _ =>
          (Activated {| ext_ws := folder;
                        ext_config := current;
                        ext_collection := store pass;
                        ext_watchGlob := watchGlob current |},
           ui pass)
      end
  end.

(** The handlers that [activate] registers, one event at a time. *)
Definition dispatch (ev : Event) (st : Extension) : Extension * list UiEvent :=
  match ev with
  | DidChangeConfiguration affects current =>
      if affects
      then ({| ext_ws := ext_ws st;
               ext_config := current;
               ext_collection := ext_collection st;
               ext_watchGlob := ext_watchGlob st |}, [])
      else (st, [])
  | WatcherDidChange | AnalyzeCommand =>
      let pass := progressAnalyze (ext_ws st) (ext_config st) (ext_collection st) in
      ({| ext_ws := ext_ws st;
          ext_config := ext_config st;
          ext_collection := store pass;
          ext_watchGlob := ext_watchGlob st |}, ui pass)
  | DidSaveTextDocument languageId fileName =>
      if String.eqb languageId "php"
      then
        let pass :=
          runAnalysis (ext_ws st) (ext_config st) JSON_parse execa Uri_file
            false (Some fileName) (ext_collection st) in
        ({| ext_ws := ext_ws st;
            ext_config := ext_config st;
            ext_collection := store pass;
            ext_watchGlob := ext_watchGlob st |}, ui pass)
      else (st, [])
  end.

End Triggers.

(** A run of the active extension: the events in the order in which they
    are handled, each with what the tool answers at that time, every
    handler finishing before the next one starts. *)
Fixpoint dispatch_all (JSON_parse : string -> option Report)
    (Uri_file : string -> string)
    (events : list (Event * (string -> ExecResult))) (st : Extension)
    : Extension * list UiEvent :=
  match events with
  | [] => (st, [])
  | (ev, execa) :: rest =>
      let '(st1, shown1) := dispatch JSON_parse execa Uri_file ev st in
      let '(st2, shown2) := dispatch_all JSON_parse Uri_file rest st1 in
      (st2, shown1 ++ shown2)
  end.

(** ** Well-formed stores *)

(** A record as the mapper builds it: a range on one line that [vscode]
    accepts, from column 0 to the length of the message, severity error,
    the product name as source, and the documentation link of its rule. *)
Definition record_ok (d : Diagnostic) : Prop :=
  0 <= line_of (range_start (diag_range d)) /\
  line_of (range_end (diag_range d)) = line_of (range_start (diag_range d)) /\
  character_of (range_start (diag_range d)) = 0 /\
  character_of (range_end (diag_range d)) =
    Z.of_nat (String.length (diag_message d)) /\
  diag_severity d = SeverityError /\
  diag_source d = PACKAGE_TITLE /\
  code_target (diag_code d) =
    "https://phpstan.org/error-identifiers/" +:+ code_value (diag_code d).

(** Every key holds at least one record, and only records of that form. *)
Definition store_ok (dc : Store) : Prop :=
  forall k ds, dc !! k = Some ds -> ds <> [] /\ Forall record_ok ds.

(** An entry of a report that yields no diagnostic. *)
Definition no_findings (fileData : FileData) : Prop :=
  fileDiagnostics fileData = inr [].

(** * Properties *)

(** ** Strings *)

Section StringFacts.

Lemma append_cons (c : ascii) (s t : string) :
  String c s +:+ t = String c (s +:+ t).
Proof. reflexivity. Qed.

Lemma append_nil (t : string) : EmptyString +:+ t = t.
Proof. reflexivity. Qed.

Lemma strip_prefix_app (p r : string) : JS.strip_prefix p (p +:+ r) = Some r.
Proof.
  induction p as [|a p IH]; simpl; [done|].
  by rewrite Ascii.eqb_refl.
Qed.

Lemma strip_prefix_Some (p s r : string) :
  JS.strip_prefix p s = Some r -> s = p +:+ r.
Proof.
  revert s; induction p as [|a p IH]; intros s; simpl.
  - by intros [= ->].
  - destruct s as [|b s]; [done|].
    destruct (Ascii.eqb a b) eqn:E; [|done].
    apply Ascii.eqb_eq in E as ->. intros H. by rewrite (IH _ H).
Qed.

Lemma strip_prefix_None (p s : string) :
  JS.strip_prefix p s = None -> forall r, s <> p +:+ r.
Proof.
  intros H r ->. by rewrite strip_prefix_app in H.
Qed.

Lemma split_first_prefix (p r : string) :
  JS.split_first p (p +:+ r) = Some (EmptyString, r).
Proof.
  destruct (p +:+ r) eqn:E; simpl; rewrite <- E, strip_prefix_app; done.
Qed.

Lemma split_first_empty (s : string) :
  JS.split_first EmptyString s = Some (EmptyString, s).
Proof. by destruct s. Qed.

Lemma split_first_Some (pat s b a : string) :
  JS.split_first pat s = Some (b, a) -> s = b +:+ pat +:+ a.
Proof.
  revert b; induction s as [|c s IH]; intros b; simpl.
  - destruct (JS.strip_prefix pat EmptyString) eqn:E; [|done].
    intros [= <- <-]. by apply strip_prefix_Some in E.
  - destruct (JS.strip_prefix pat (String c s)) eqn:E.
    + intros [= <- <-]. by apply strip_prefix_Some in E.
    + destruct (JS.split_first pat s) as [[b' a']|] eqn:E'; [|done].
      intros [= <- <-]. rewrite append_cons. f_equal. by apply IH.
Qed.

Lemma split_first_minimal (pat s b a : string) :
  JS.split_first pat s = Some (b, a) ->
  forall b' a', s = b' +:+ pat +:+ a' -> (String.length b <= String.length b')%nat.
Proof.
  revert b; induction s as [|c s IH]; intros b; simpl.
  - destruct (JS.strip_prefix pat EmptyString) eqn:E; [|done].
    intros [= <- <-] b' a' _. simpl. lia.
  - destruct (JS.strip_prefix pat (String c s)) eqn:E.
    + intros [= <- <-] b' a' _. simpl. lia.
    + destruct (JS.split_first pat s) as [[b0 a0]|] eqn:E'; [|done].
      intros [= <- <-] b' a' Hs.
      destruct b' as [|c' b'].
      * exfalso. rewrite append_nil in Hs. by apply (strip_prefix_None _ _ E a').
      * rewrite append_cons in Hs. injection Hs as -> Hs. simpl.
        specialize (IH b0 eq_refl b' a' Hs). lia.
Qed.

Lemma GetSubstitution_dollar_free (m b a t : string) :
  JS.dollar_free t = true -> JS.GetSubstitution m b a t = t.
Proof.
  induction t as [|c t IH]; simpl; [done|].
  destruct (Ascii.eqb c "$"); simpl; [done|].
  intros H. by rewrite IH.
Qed.

Lemma GetSubstitution_pattern_free (m b a t : string) :
  JS.pattern_free t = true -> JS.GetSubstitution m b a t = t.
Proof.
  induction t as [|c t IH]; [done|].
  intros H. cbn [JS.pattern_free] in H. apply andb_prop in H as [Hc Ht].
  cbn [JS.GetSubstitution].
  destruct (Ascii.eqb c "$"); [|by rewrite (IH Ht)].
  destruct t as [|d t']; [done|].
  apply negb_true_iff in Hc.
  apply orb_false_elim in Hc as [Hc Hq].
  apply orb_false_elim in Hc as [Hc Hb].
  apply orb_false_elim in Hc as [Hd Ha].
  rewrite Hd, Ha, Hb, Hq. by rewrite (IH Ht).
Qed.

Lemma dollar_free_pattern_free (t : string) :
  JS.dollar_free t = true -> JS.pattern_free t = true.
Proof.
  induction t as [|c t IH]; [done|].
  cbn [JS.dollar_free JS.pattern_free].
  intros [Hc Ht]%andb_prop. apply negb_true_iff in Hc.
  by rewrite Hc, (IH Ht).
Qed.

Lemma digit_value_char (d : N) :
  (d < 10)%N -> JS.digit_value (pretty_N_char d) = Some (Z.of_N d).
Proof.
  intros Hd.
  assert (d = 0 \/ d = 1 \/ d = 2 \/ d = 3 \/ d = 4 \/ d = 5 \/ d = 6 \/ d = 7
          \/ d = 8 \/ d = 9)%N as Hcases by lia.
  repeat (destruct Hcases as [->|Hcases]; [reflexivity|]). by subst d.
Qed.

Lemma pretty_N_go_value (x : N) (s : string) :
  exists k : nat, forall acc,
    JS.decimal_value_from acc (pretty_N_go x s) =
    JS.decimal_value_from (acc * 10 ^ Z.of_nat k + Z.of_N x) s.
Proof.
  revert s. induction (N.lt_wf_0 x) as [x _ IH]; intros s.
  destruct (decide (x = 0)%N) as [->|Hx].
  - exists 0%nat. intros acc. rewrite pretty_N_go_0. f_equal. simpl. lia.
  - assert (0 < x)%N as Hpos by lia.
    rewrite (pretty_N_go_step x s Hpos).
    destruct (IH (x `div` 10)%N (N.div_lt x 10 Hpos eq_refl)
                (String (pretty_N_char (x `mod` 10)) s)) as [k Hk].
    exists (S k). intros acc. rewrite Hk. cbn [JS.decimal_value_from].
    rewrite digit_value_char by (apply N.mod_lt; lia). f_equal.
    rewrite Nat2Z.inj_succ, Z.pow_succ_r by lia.
    pose proof (N.div_mod x 10 ltac:(lia)) as Hdm.
    apply (f_equal Z.of_N) in Hdm. rewrite N2Z.inj_add, N2Z.inj_mul in Hdm.
    change (Z.of_N 10) with 10 in Hdm. lia.
Qed.

Lemma pretty_N_go_head (x : N) (s : string) :
  (0 < x)%N ->
  JS.leading_zero (pretty_N_go x s) = false /\ pretty_N_go x s <> EmptyString.
Proof.
  revert s. induction (N.lt_wf_0 x) as [x _ IH]; intros s Hpos.
  rewrite (pretty_N_go_step x s Hpos).
  destruct (decide (x `div` 10 = 0)%N) as [Hq|Hq].
  - rewrite Hq, pretty_N_go_0.
    assert (x < 10)%N as Hlt by (apply N.div_small_iff in Hq; lia).
    rewrite (N.mod_small x 10 Hlt). split; [|done].
    assert (x = 1 \/ x = 2 \/ x = 3 \/ x = 4 \/ x = 5 \/ x = 6 \/ x = 7
            \/ x = 8 \/ x = 9)%N as Hcases by lia.
    repeat (destruct Hcases as [->|Hcases]; [reflexivity|]). by subst x.
  - apply IH; [by apply N.div_lt|by apply N.neq_0_lt_0].
Qed.

Lemma number_to_string_decimal (n : Z) :
  0 < n ->
  JS.decimal_value (JS.number_to_string n) = Some n /\
  JS.leading_zero (JS.number_to_string n) = false.
Proof.
  intros Hn. destruct n as [|p|p]; try lia.
  unfold JS.number_to_string, pretty, pretty_Z, pretty, pretty_positive,
    pretty, pretty_N.
  rewrite decide_False by done.
  destruct (pretty_N_go_head (N.pos p) EmptyString ltac:(lia)) as [Hz Hne].
  split; [|done]. unfold JS.decimal_value.
  destruct (pretty_N_go (N.pos p) EmptyString) eqn:Hs; [done|].
  rewrite <- Hs.
  destruct (pretty_N_go_value (N.pos p) EmptyString) as [k Hk].
  rewrite Hk. simpl. done.
Qed.

End StringFacts.

(** ** The two loops of [processOutput] *)

Section MapFacts.

Context (ws : string) (config : Config).

Lemma Map_set_elem (k : string) (v : list Diagnostic)
    (m : list (string * list Diagnostic)) (q : string) (ds : list Diagnostic) :
  (q, ds) ∈ Map_set k v m -> (q = k /\ ds = v) \/ (q, ds) ∈ m.
Proof.
  induction m as [|[k' v'] m IH]; simpl.
  - intros [= -> ->]%list_elem_of_singleton. by left.
  - destruct (String.eqb k' k).
    + intros [[= -> ->]|Hin]%elem_of_cons; [by left|]. right. by right.
    + intros [[= -> ->]|Hin]%elem_of_cons; [right; by left|].
      destruct (IH Hin) as [?|?]; [by left|]. right. by right.
Qed.

Lemma Map_set_here (k : string) (v : list Diagnostic)
    (m : list (string * list Diagnostic)) :
  (k, v) ∈ Map_set k v m.
Proof.
  induction m as [|[k' v'] m IH]; simpl; [by left|].
  destruct (String.eqb k' k); [by left|by right].
Qed.

Lemma Map_set_other (k : string) (v : list Diagnostic)
    (m : list (string * list Diagnostic)) (q : string) (ds : list Diagnostic) :
  q <> k -> (q, ds) ∈ m -> (q, ds) ∈ Map_set k v m.
Proof.
  intros Hne. induction m as [|[k' v'] m IH]; simpl; [by intros ?%elem_of_nil|].
  destruct (String.eqb k' k) eqn:E.
  - apply String.eqb_eq in E as ->.
    intros [[= -> ->]|Hin]%elem_of_cons; [done|by right].
  - intros [[= -> ->]|Hin]%elem_of_cons; [by left|]. right. by apply IH.
Qed.

Lemma Map_set_key (k : string) (v : list Diagnostic)
    (m : list (string * list Diagnostic)) (q : string) :
  q ∈ (Map_set k v m).*1 <-> q = k \/ q ∈ m.*1.
Proof.
  induction m as [|[k' v'] m IH]; simpl.
  - rewrite list_elem_of_singleton. split; [by left|].
    intros [?|?%elem_of_nil]; done.
  - destruct (String.eqb k' k) eqn:E.
    + apply String.eqb_eq in E as ->. simpl. rewrite !elem_of_cons. tauto.
    + simpl. rewrite !elem_of_cons, IH. tauto.
Qed.

Lemma Map_set_NoDup (k : string) (v : list Diagnostic)
    (m : list (string * list Diagnostic)) :
  NoDup m.*1 -> NoDup (Map_set k v m).*1.
Proof.
  induction m as [|[k' v'] m IH]; simpl.
  - intros _. apply NoDup_singleton.
  - intros [Hk' Hm]%NoDup_cons. destruct (String.eqb k' k) eqn:E.
    + apply String.eqb_eq in E as ->. simpl. by apply NoDup_cons.
    + apply String.eqb_neq in E. simpl. apply NoDup_cons. split; [|by apply IH].
      rewrite Map_set_key. by intros [?|?].
Qed.

Lemma NoDup_fst_agree (m : list (string * list Diagnostic))
    (q : string) (a b : list Diagnostic) :
  NoDup m.*1 -> (q, a) ∈ m -> (q, b) ∈ m -> a = b.
Proof.
  induction m as [|[k v] m IH]; simpl; [by intros _ ?%elem_of_nil|].
  intros [Hk Hm]%NoDup_cons Ha Hb.
  apply elem_of_cons in Ha as [Ha|Ha]; apply elem_of_cons in Hb as [Hb|Hb].
  - congruence.
  - injection Ha as -> ->. destruct Hk. apply list_elem_of_fmap. by exists (k, b).
  - injection Hb as -> ->. destruct Hk. apply list_elem_of_fmap. by exists (k, a).
  - by apply IH.
Qed.

Lemma to_diagnostics_inr (l : list Violation) (ds : list Diagnostic) :
  to_diagnostics l = inr ds ->
  ds = record_of <$> l /\ Forall (fun v => JS.truthy (message v) = true) l.
Proof.
  revert ds; induction l as [|v l IH]; intros ds; simpl.
  - by intros [= <-].
  - unfold to_diagnostic. destruct (JS.truthy (message v)) eqn:Hv; [|done].
    destruct (to_diagnostics l) as [e|ds'] eqn:Hl; [done|].
    intros [= <-]. destruct (IH ds' eq_refl) as [-> Hall].
    split; [done|by constructor].
Qed.

Lemma to_diagnostics_total (l : list Violation) :
  Forall (fun v => JS.truthy (message v) = true) l ->
  to_diagnostics l = inr (record_of <$> l).
Proof.
  induction 1 as [|v l Hv _ IH]; simpl; [done|].
  unfold to_diagnostic. by rewrite Hv, IH.
Qed.


Lemma fileDiagnostics_nonempty (fd : FileData) (ds : list Diagnostic) :
  fileDiagnostics fd = inr ds ->
  (0 <? Z.of_nat (length ds)) = true ->
  exists l, fd = FileObject (Messages l) /\ l <> [] /\ to_diagnostics l = inr ds.
Proof.
  destruct fd as [|[| |l]]; simpl; try done.
  - by intros [= <-].
  - by intros [= <-].
  - intros Hl H. exists l. split; [done|]. split; [|done].
    intros ->. simpl in Hl. injection Hl as <-. done.
Qed.

Lemma fileDiagnostics_Messages (l : list Violation) (ds : list Diagnostic) :
  l <> [] -> to_diagnostics l = inr ds ->
  (0 <? Z.of_nat (length ds)) = true /\ ds <> [].
Proof.
  intros Hl [-> _]%to_diagnostics_inr.
  destruct l; [done|]. simpl. split; [apply Z.ltb_lt; lia|done].
Qed.

Lemma collect_app (a b : list (string * FileData))
    (acc : list (string * list Diagnostic)) :
  collect ws config (a ++ b) acc =
    match collect ws config a acc with
    | inl e => inl e
    | inr m => collect ws config b m
    end.
Proof.
  revert acc; induction a as [|[p fd] a IH]; intros acc; simpl; [done|].
  destruct (fileDiagnostics fd) as [e|ds]; [done|]. apply IH.
Qed.

Lemma collect_elem (entries : list (string * FileData))
    (acc m : list (string * list Diagnostic)) (q : string) (ds : list Diagnostic) :
  collect ws config entries acc = inr m ->
  (q, ds) ∈ m ->
  (q, ds) ∈ acc \/
  exists p l, (p, FileObject (Messages l)) ∈ entries /\ l <> [] /\
              store_key ws config p = q /\ to_diagnostics l = inr ds.
Proof.
  revert acc; induction entries as [|[p fd] rest IH]; intros acc; simpl.
  - intros [= <-]. by left.
  - destruct (fileDiagnostics fd) as [e|ds0] eqn:Hfd; [done|].
    intros Hc Hm. destruct (IH _ Hc Hm) as [Hacc|(p' & l & Hin & Hl & Hq & Hds)].
    + destruct (0 <? Z.of_nat (length ds0)) eqn:Hlen; [|by left].
      destruct (fileDiagnostics_nonempty _ _ Hfd Hlen) as (l & -> & Hl & Hds).
      destruct (Map_set_elem _ _ _ _ _ Hacc) as [[-> ->]|?]; [|by left].
      right. exists p, l. split; [by left|done].
    + right. exists p', l. split; [by right|done].
Qed.

Lemma collect_keeps_key (entries : list (string * FileData))
    (acc m : list (string * list Diagnostic)) (q : string) :
  collect ws config entries acc = inr m ->
  q ∈ acc.*1 -> q ∈ m.*1.
Proof.
  revert acc; induction entries as [|[p fd] rest IH]; intros acc; simpl.
  - by intros [= <-].
  - destruct (fileDiagnostics fd) as [e|ds0]; [done|].
    intros Hc Hq. apply (IH _ Hc).
    destruct (0 <? Z.of_nat (length ds0)); [|done].
    apply Map_set_key. by right.
Qed.

Lemma collect_key (entries : list (string * FileData))
    (acc m : list (string * list Diagnostic)) (p : string) (l : list Violation) :
  collect ws config entries acc = inr m ->
  (p, FileObject (Messages l)) ∈ entries -> l <> [] ->
  store_key ws config p ∈ m.*1.
Proof.
  revert acc; induction entries as [|[p' fd] rest IH]; intros acc; simpl.
  - by intros _ ?%elem_of_nil.
  - destruct (fileDiagnostics fd) as [e|ds0] eqn:Hfd; [done|].
    intros Hc [[= <- <-]|Hin]%elem_of_cons Hl; [|by apply (IH _ Hc)].
    simpl in Hfd.
    destruct (fileDiagnostics_Messages l ds0 Hl Hfd) as [Hlen _].
    rewrite Hlen in Hc. apply (collect_keeps_key _ _ _ _ Hc).
    apply Map_set_key. by left.
Qed.

Lemma collect_NoDup (entries : list (string * FileData))
    (acc m : list (string * list Diagnostic)) :
  collect ws config entries acc = inr m -> NoDup acc.*1 -> NoDup m.*1.
Proof.
  revert acc; induction entries as [|[p fd] rest IH]; intros acc; simpl.
  - by intros [= <-].
  - destruct (fileDiagnostics fd) as [e|ds0]; [done|].
    intros Hc Hacc. apply (IH _ Hc).
    destruct (0 <? Z.of_nat (length ds0)); [|done]. by apply Map_set_NoDup.
Qed.

Lemma collect_keeps (entries : list (string * FileData))
    (acc m : list (string * list Diagnostic)) (k : string) (ds : list Diagnostic) :
  (forall q l, (q, FileObject (Messages l)) ∈ entries -> l <> [] ->
               store_key ws config q <> k) ->
  collect ws config entries acc = inr m ->
  (k, ds) ∈ acc -> (k, ds) ∈ m.
Proof.
  revert acc; induction entries as [|[p fd] rest IH]; intros acc Hk; simpl.
  - by intros [= <-].
  - destruct (fileDiagnostics fd) as [e|ds0] eqn:Hfd; [done|].
    intros Hc Hin. apply (IH _ (fun q l H => Hk q l (list_elem_of_further _ _ _ H)) Hc).
    destruct (0 <? Z.of_nat (length ds0)) eqn:Hlen; [|done].
    destruct (fileDiagnostics_nonempty _ _ Hfd Hlen) as (l & -> & Hl & _).
    apply Map_set_other; [|done].
    intros Heq. apply (Hk p l); [by left|done|done].
Qed.


Lemma collect_no_findings (entries : list (string * FileData))
    (acc : list (string * list Diagnostic)) :
  Forall (fun entry => no_findings (snd entry)) entries ->
  collect ws config entries acc = inr acc.
Proof.
  induction 1 as [|[p fd] rest Hfd _ IH]; simpl; [done|].
  unfold no_findings in Hfd. simpl in Hfd. by rewrite Hfd.
Qed.

Lemma record_of_ok (msg : Violation) : record_ok (record_of msg).
Proof.
  unfold record_ok, record_of, JS.Math_max. simpl.
  repeat split; lia.
Qed.

Lemma records_ok (l : list Violation) :
  Forall record_ok (record_of <$> l).
Proof. induction l; constructor; [apply record_of_ok|done]. Qed.

Lemma store_ok_empty : store_ok ∅.
Proof. intros k ds. by rewrite lookup_empty. Qed.

Lemma store_ok_delete (k : string) (dc : Store) :
  store_ok dc -> store_ok (delete k dc).
Proof. intros H k' ds Hk. apply lookup_delete_Some in Hk as [_ Hk]. by apply (H k'). Qed.

End MapFacts.

Section PublishFacts.

Context (Uri_file : string -> string).

Lemma publish_lookup (m : list (string * list Diagnostic)) (dc : Store)
    (k : string) :
  publish Uri_file m dc !! k =
    match last_set Uri_file k m with Some ds => Some ds | None => dc !! k end.
Proof.
  revert dc; induction m as [|[q v] m IH]; intros dc; [done|].
  unfold publish in *. simpl. rewrite IH.
  destruct (last_set Uri_file k m); [done|].
  destruct (String.eqb (Uri_file q) k) eqn:E.
  - apply String.eqb_eq in E as <-. by rewrite lookup_insert_eq.
  - apply String.eqb_neq in E. by rewrite lookup_insert_ne.
Qed.

Lemma publish_empty (dc : Store) : publish Uri_file [] dc = dc.
Proof. reflexivity. Qed.

Lemma last_set_Some (k : string) (m : list (string * list Diagnostic))
    (ds : list Diagnostic) :
  last_set Uri_file k m = Some ds -> exists q, (q, ds) ∈ m /\ Uri_file q = k.
Proof.
  induction m as [|[q v] m IH]; simpl; [done|].
  destruct (last_set Uri_file k m) as [ds'|].
  - intros [= <-]. destruct (IH eq_refl) as (q' & Hin & Hq).
    exists q'. split; [by right|done].
  - destruct (String.eqb (Uri_file q) k) eqn:E; [|done].
    apply String.eqb_eq in E. intros [= <-]. exists q. split; [by left|done].
Qed.

Lemma last_set_is_Some (m : list (string * list Diagnostic))
    (q : string) (ds : list Diagnostic) :
  (q, ds) ∈ m -> is_Some (last_set Uri_file (Uri_file q) m).
Proof.
  induction m as [|[q' v] m IH]; simpl; [by intros ?%elem_of_nil|].
  intros [[= <- <-]|Hin]%elem_of_cons.
  - destruct (last_set Uri_file (Uri_file q) m); [eauto|].
    rewrite String.eqb_refl. eauto.
  - destruct (IH Hin) as [ds' ->]. eauto.
Qed.

Lemma last_set_unique (k : string) (m : list (string * list Diagnostic))
    (q : string) (ds : list Diagnostic) :
  (q, ds) ∈ m -> Uri_file q = k ->
  (forall q' ds', (q', ds') ∈ m -> Uri_file q' = k -> ds' = ds) ->
  last_set Uri_file k m = Some ds.
Proof.
  intros Hin <- Hall.
  destruct (last_set_is_Some m q ds Hin) as [ds' Hds'].
  rewrite Hds'. f_equal.
  destruct (last_set_Some _ _ _ Hds') as (q' & Hin' & Hq').
  by apply (Hall q' ds').
Qed.

Lemma publish_again (m : list (string * list Diagnostic)) (dc : Store) :
  publish Uri_file m (publish Uri_file m dc) = publish Uri_file m dc.
Proof.
  apply map_eq; intros k. rewrite !publish_lookup.
  by destruct (last_set Uri_file k m).
Qed.

Lemma publish_singleton (k : string) (ds : list Diagnostic) (dc : Store) :
  publish Uri_file [(k, ds)] dc = <[Uri_file k := ds]> dc.
Proof. reflexivity. Qed.

End PublishFacts.

(** ** Passes *)

Section PassFacts.

Context (ws : string) (config : Config).
Context (JSON_parse : string -> option Report) (execa : string -> ExecResult).
Context (Uri_file : string -> string).

Lemma processOutput_cases (output : Report) (dc : Store) :
  (exists e, processOutput ws config Uri_file output dc = (dc, Rejected e) /\
     (files output = None \/
      exists entries, files output = Some entries /\ entries <> [] /\
        collect ws config entries [] = inl e)) \/
  (exists entries m b,
     files output = Some entries /\
     collect ws config entries [] = inr m /\
     processOutput ws config Uri_file output dc =
       (publish Uri_file m dc, Resolved (Some b)) /\
     b = negb (Z.of_nat (length entries) =? 0)).
Proof.
  unfold processOutput. destruct (files output) as [entries|]; [|left; eauto].
  destruct entries as [|en rest].
  - right. by exists [], [], false.
  - change (Z.of_nat (length (en :: rest)) =? 0) with false. cbv iota.
    destruct (collect ws config (en :: rest) []) as [e|m] eqn:Hc.
    + left. exists e. split; [done|]. right. by exists (en :: rest).
    + right. by exists (en :: rest), m, true.
Qed.

Lemma runAnalysis_resume_report check progress filePath dc output entries :
  report_of ws config JSON_parse execa progress filePath = Some output ->
  files output = Some entries ->
  runAnalysis_resume ws config JSON_parse execa Uri_file check progress filePath dc =
    let dc1 :=
      if (Z.of_nat (length entries) =? 0) && check
      then delete (Uri_file (default EmptyString filePath)) dc else dc in
    if single_file filePath
    then {| store := fst (processOutput ws config Uri_file output dc1); ui := [];
            settled := snd (processOutput ws config Uri_file output dc1) |}
    else handle ws config Uri_file output progress dc1.
Proof.
  unfold report_of, runAnalysis_resume.
  destruct (invoke _ _) as [shown|text]; [done|].
  intros -> ->. simpl. destruct (single_file filePath); [|done].
  by destruct (processOutput _ _ _ _ _).
Qed.

Lemma runAnalysis_resume_no_report check progress filePath dc :
  (forall output, report_of ws config JSON_parse execa progress filePath = Some output ->
     files output = None) ->
  store (runAnalysis_resume ws config JSON_parse execa Uri_file
           check progress filePath dc) = dc /\
  forall b, settled (runAnalysis_resume ws config JSON_parse execa Uri_file
                       check progress filePath dc)
            <> Resolved (Some b).
Proof.
  unfold report_of, runAnalysis_resume.
  destruct (invoke _ _) as [shown|text]; [done|].
  destruct (JSON_parse text) as [output|]; [|done].
  intros H. by rewrite (H output eq_refl).
Qed.

Lemma handle_store_settled output progress dc :
  store (handle ws config Uri_file output progress dc) =
    fst (processOutput ws config Uri_file output ∅) /\
  settled (handle ws config Uri_file output progress dc) =
    snd (processOutput ws config Uri_file output ∅).
Proof. unfold handle. by destruct (processOutput _ _ _ _ _). Qed.

Lemma published_flagged (entries : list (string * FileData))
    (m : list (string * list Diagnostic)) (k : string) :
  collect ws config entries [] = inr m ->
  is_Some (last_set Uri_file k m) <-> flagged ws config Uri_file entries k.
Proof.
  intros Hc. split.
  - intros [ds Hds]. destruct (last_set_Some _ _ _ _ Hds) as (q & Hin & Hq).
    destruct (collect_elem _ _ _ _ _ _ _ Hc Hin)
      as [?%elem_of_nil|(p & l & Hp & Hl & Hk & _)]; [done|].
    exists p, l. by rewrite Hk.
  - intros (p & l & Hin & Hl & <-).
    pose proof (collect_key _ _ _ _ _ _ _ Hc Hin Hl) as Hkey.
    apply list_elem_of_fmap in Hkey as ([q ds] & Hq & Hqin). simpl in Hq.
    rewrite Hq. by apply (last_set_is_Some _ _ _ ds).
Qed.

Lemma published_records (entries : list (string * FileData))
    (m : list (string * list Diagnostic)) (k : string) (ds : list Diagnostic) :
  collect ws config entries [] = inr m ->
  last_set Uri_file k m = Some ds ->
  exists p l, (p, FileObject (Messages l)) ∈ entries /\ l <> [] /\
              Uri_file (store_key ws config p) = k /\
              ds = record_of <$> l /\
              Forall (fun v => JS.truthy (message v) = true) l.
Proof.
  intros Hc Hds. destruct (last_set_Some _ _ _ _ Hds) as (q & Hin & Hq).
  destruct (collect_elem _ _ _ _ _ _ _ Hc Hin)
    as [?%elem_of_nil|(p & l & Hp & Hl & Hk & Hl')]; [done|].
  apply to_diagnostics_inr in Hl' as [-> Hall].
  exists p, l. by rewrite Hk.
Qed.

Lemma processOutput_resolved (output : Report) (dc dc' : Store) (b : bool) :
  processOutput ws config Uri_file output dc = (dc', Resolved (Some b)) ->
  exists entries,
    files output = Some entries /\
    (forall k, is_Some (dc' !! k) <->
               is_Some (dc !! k) \/ flagged ws config Uri_file entries k) /\
    ((forall k ds, dc !! k = Some ds -> ds <> []) ->
     forall k ds, dc' !! k = Some ds -> ds <> []).
Proof.
  destruct (processOutput_cases output dc)
    as [(e & -> & _)|(entries & m & b' & Hf & Hc & -> & _)]; [done|].
  intros [= <- _]. exists entries. split; [done|]. split.
  - intros k. rewrite publish_lookup.
    pose proof (published_flagged _ _ k Hc) as Hd.
    destruct (last_set Uri_file k m) as [ds|] eqn:Hm.
    + split; [intros _; right; apply Hd; eauto|eauto].
    + split; [by left|]. intros [H|H]; [done|].
      exfalso. eapply is_Some_None, Hd, H.
  - intros Hdc k ds. rewrite publish_lookup.
    destruct (last_set Uri_file k m) as [ds'|] eqn:Hm; [|apply Hdc].
    intros [= <-].
    destruct (published_records _ _ _ _ Hc Hm) as (p & l & _ & Hl & _ & -> & _).
    by destruct l.
Qed.


Lemma processOutput_store_ok (output : Report) (dc : Store) :
  store_ok dc -> store_ok (fst (processOutput ws config Uri_file output dc)).
Proof.
  intros Hok.
  destruct (processOutput_cases output dc)
    as [(e & -> & _)|(entries & m & b & Hf & Hc & -> & _)]; [done|]. simpl.
  intros k ds. rewrite publish_lookup.
  destruct (last_set Uri_file k m) as [ds'|] eqn:Hm; [|apply Hok].
  intros [= <-].
  destruct (published_records _ _ _ _ Hc Hm) as (p & l & _ & Hl & _ & -> & _).
  split; [by destruct l|apply records_ok].
Qed.

Lemma processOutput_again (output : Report) (dc : Store) :
  processOutput ws config Uri_file output
    (fst (processOutput ws config Uri_file output dc)) =
    processOutput ws config Uri_file output dc.
Proof.
  destruct (processOutput_cases output dc)
    as [(e & He & _)|(entries & m & b & Hf & Hc & Hp & Hb)].
  - rewrite He. simpl. done.
  - rewrite Hp. simpl.
    destruct (processOutput_cases output (publish Uri_file m dc))
      as [(e' & He' & [Hf'|(entries' & Hf' & _ & Hc')])
         |(entries' & m' & b' & Hf' & Hc' & Hp' & Hb')]; try congruence.
    rewrite Hp'.
    assert (entries' = entries) as -> by congruence.
    assert (m' = m) as -> by congruence.
    by rewrite publish_again, Hb, Hb'.
Qed.

End PassFacts.

(** ** The store invariant *)

Section StoreInvariant.

Context (ws : string) (config : Config).
Context (JSON_parse : string -> option Report) (execa : string -> ExecResult).
Context (Uri_file : string -> string).

Local Abbreviation run := (runAnalysis ws config JSON_parse execa Uri_file).
Local Abbreviation the_report := (report_of ws config JSON_parse execa).

(** C1, as the code has it, the keys being those under which the
    collection files the URIs: after a completed whole-project pass a key
    is in the store exactly when the report flags it; after a completed
    single-file pass on F the keys are those the report flags and those
    that were there before, the key of F itself being dropped only when
    the report lists no file at all; and no pass stores an empty list. *)
Theorem C1_store_after_completed_pass
    (progress : bool) (filePath : option string) (dc : Store) (b : bool) :
  settled (run progress filePath dc) = Resolved (Some b) ->
  exists output entries,
    the_report progress filePath = Some output /\
    files output = Some entries /\
    (single_file filePath = false ->
     forall k, is_Some (store (run progress filePath dc) !! k) <->
               flagged ws config Uri_file entries k) /\
    (single_file filePath = true ->
     forall k, is_Some (store (run progress filePath dc) !! k) <->
               flagged ws config Uri_file entries k \/
               (is_Some (dc !! k) /\
                ~ (entries = [] /\ Uri_file <$> filePath = Some k))) /\
    ((forall k ds, dc !! k = Some ds -> ds <> []) ->
     forall k ds, store (run progress filePath dc) !! k = Some ds -> ds <> []).
Proof.
  intros Hs.
  destruct (the_report progress filePath) as [output|] eqn:Hr; cycle 1.
  { exfalso. unfold runAnalysis in Hs.
    eapply (proj2 (runAnalysis_resume_no_report ws config JSON_parse execa
                     Uri_file _ _ _ _ _)), Hs.
    Unshelve. intros output. by rewrite Hr. }
  destruct (files output) as [entries|] eqn:Hf; cycle 1.
  { exfalso. unfold runAnalysis in Hs.
    eapply (proj2 (runAnalysis_resume_no_report ws config JSON_parse execa
                     Uri_file _ _ _ _ _)), Hs.
    Unshelve. intros output'. rewrite Hr. by intros [= <-]. }
  exists output, entries. split; [done|]. split; [done|].
  unfold runAnalysis in *.
  rewrite (runAnalysis_resume_report ws config JSON_parse execa Uri_file
             _ _ _ _ _ _ Hr Hf) in *.
  cbv zeta in *.
  destruct (single_file filePath) eqn:Hsf.
  - (* single-file mode *)
    simpl in *.
    destruct (processOutput ws config Uri_file output _) as [dc' s] eqn:Hp.
    simpl in *. subst s.
    destruct (processOutput_resolved _ _ _ _ _ _ _ Hp) as (entries' & Hf' & Hdom & Hne).
    assert (entries' = entries) as -> by congruence.
    split; [done|]. split.
    + intros _ k. rewrite Hdom.
      destruct filePath as [path|]; [|done]. simpl in Hsf.
      unfold has_entry. rewrite Hsf. simpl.
      destruct entries as [|en rest].
      * simpl. case_bool_decide as Hin; simpl.
        -- destruct (decide (Uri_file path = k)) as [<-|Hk].
           ++ rewrite lookup_delete_eq. split.
              ** intros [H|H]; [by apply is_Some_None in H|by left].
              ** intros [H|[_ H]]; [by right|]. exfalso. by apply H.
           ++ rewrite lookup_delete_ne by done. split.
              ** intros [H|H]; [right|by left]. split; [done|].
                 intros [_ [= ?]]. done.
              ** intros [H|[H _]]; [by right|by left].
        -- split.
           ++ intros [H|H]; [right|by left]. split; [done|].
              intros [_ [= <-]]. done.
           ++ intros [H|[H _]]; [by right|by left].
      * simpl. split.
        -- intros [H|H]; [right|by left]. split; [done|]. by intros [? _].
        -- intros [H|[H _]]; [by right|by left].
    + intros Hdc. apply Hne. intros k ds.
      destruct (_ && _); [|apply Hdc].
      intros Hk. apply lookup_delete_Some in Hk as [_ Hk]. by eapply Hdc.
  - (* whole-project mode *)
    destruct (handle_store_settled ws config Uri_file output progress
                (if (Z.of_nat (length entries) =? 0) && has_entry Uri_file filePath dc
                 then delete (Uri_file (default EmptyString filePath)) dc else dc))
      as [-> Hst].
    rewrite Hst in Hs.
    destruct (processOutput ws config Uri_file output ∅) as [dc' s] eqn:Hp.
    simpl in *. subst s.
    destruct (processOutput_resolved _ _ _ _ _ _ _ Hp) as (entries' & Hf' & Hdom & Hne).
    assert (entries' = entries) as -> by congruence.
    split; [|split; [done|]].
    + intros _ k. rewrite Hdom, lookup_empty. split; [|by right].
      intros [H|H]; [by apply is_Some_None in H|done].
    + intros _. apply Hne. intros k ds. by rewrite lookup_empty.
Qed.

End StoreInvariant.

(** A whole-project pass over the scenario's report completes and stores
    no empty list. *)
Lemma C1_store_after_completed_pass_witness :
  let pass :=
    runAnalysis Scenario.root Scenario.settings
      (Scenario.parses_as Scenario.report) Scenario.prints Scenario.file_uri
      true None Scenario.flagged_store in
  settled pass = Resolved (Some true) /\
  forall k ds, store pass !! k = Some ds -> ds <> [].
Proof.
  split; [reflexivity|].
  destruct (C1_store_after_completed_pass Scenario.root Scenario.settings
              (Scenario.parses_as Scenario.report) Scenario.prints
              Scenario.file_uri
              true None Scenario.flagged_store true eq_refl)
    as (output & entries & _ & _ & _ & _ & Hne).
  apply Hne. intros k ds. unfold Scenario.flagged_store.
  intros [_ <-]%lookup_singleton_Some. discriminate.
Defined.

(** C1 as it is stated fails: a completed single-file pass whose report
    lists the saved file with no violation leaves the file's earlier entry
    in the store. *)
Lemma C1_counterexample :
  ~ (forall ws config JSON_parse execa Uri_file progress filePath dc b
            output entries p l,
       settled (runAnalysis ws config JSON_parse execa Uri_file progress filePath dc)
         = Resolved (Some b) ->
       report_of ws config JSON_parse execa progress filePath = Some output ->
       files output = Some entries ->
       (p, FileObject (Messages l)) ∈ entries ->
       (is_Some (store (runAnalysis ws config JSON_parse execa Uri_file
                          progress filePath dc)
                   !! Uri_file (store_key ws config p)) <-> l <> [])).
Proof.
  intros H.
  specialize (H Scenario.root Scenario.settings
                (Scenario.parses_as Scenario.clean_report) Scenario.prints
                Scenario.file_uri
                false (Some Scenario.foo) Scenario.flagged_store true
                Scenario.clean_report
                [(Scenario.foo_reported, FileObject (Messages []))]
                Scenario.foo_reported []
                eq_refl eq_refl eq_refl).
  assert (Hin : (Scenario.foo_reported, FileObject (Messages []))
                ∈ [(Scenario.foo_reported, FileObject (Messages []))])
    by apply list_elem_of_here.
  apply (proj1 (H Hin)); [|done].
  vm_compute. eauto.
Qed.

(** ** Replace mode *)

Section ReplaceMode.

Context (ws : string) (config : Config) (Uri_file : string -> string).


End ReplaceMode.


(** ** Single-file bookkeeping *)

Section SingleFile.

Context (ws : string) (config : Config).
Context (JSON_parse : string -> option Report) (execa : string -> ExecResult).
Context (Uri_file : string -> string).

Local Abbreviation run := (runAnalysis ws config JSON_parse execa Uri_file).
Local Abbreviation resume := (runAnalysis_resume ws config JSON_parse execa Uri_file).
Local Abbreviation the_report := (report_of ws config JSON_parse execa).

Lemma processOutput_unflagged (output : Report) (dc : Store) (k : string) :
  (forall entries, files output = Some entries ->
     ~ flagged ws config Uri_file entries k) ->
  fst (processOutput ws config Uri_file output dc) !! k = dc !! k.
Proof.
  intros Hk.
  destruct (processOutput_cases ws config Uri_file output dc)
    as [(e & -> & _)|(entries & m & b & Hf & Hc & -> & _)]; [done|]. simpl.
  rewrite publish_lookup.
  destruct (last_set Uri_file k m) as [ds|] eqn:Hm; [|done].
  destruct (Hk entries Hf).
  apply (published_flagged ws config Uri_file entries m k Hc). eauto.
Qed.

(** C3, as the code has it: in a single-file run on F the presence of an
    entry under the key of F is read off the store before the tool is
    invoked, and that flag alone decides the deletion, whatever store the
    continuation finds; a report whose [files] is empty deletes an entry
    F had; a report that lists files keeps the entry of F as it was
    unless one of its entries with a violation is stored under the key of
    F, so in particular when it lists files without violation or only
    other files. *)
Theorem C3_single_file_bookkeeping
    (progress : bool) (F : string) (dc : Store) (output : Report) :
  JS.truthy F = true ->
  the_report progress (Some F) = Some output ->
  (files output = Some [] ->
   forall dc',
     store (resume (has_entry Uri_file (Some F) dc) progress (Some F) dc') =
       if bool_decide (is_Some (dc !! Uri_file F))
       then delete (Uri_file F) dc' else dc') /\
  (files output = Some [] -> is_Some (dc !! Uri_file F) ->
   store (run progress (Some F) dc) = delete (Uri_file F) dc /\
   store (run progress (Some F) dc) !! Uri_file F = None) /\
  (forall entries,
     files output = Some entries -> entries <> [] ->
     ~ flagged ws config Uri_file entries (Uri_file F) ->
     store (run progress (Some F) dc) !! Uri_file F = dc !! Uri_file F) /\
  (forall entries,
     files output = Some entries -> entries <> [] ->
     (forall p fd, (p, fd) ∈ entries ->
        Uri_file (store_key ws config p) <> Uri_file F) ->
     store (run progress (Some F) dc) !! Uri_file F = dc !! Uri_file F).
Proof.
  intros HF Hr.
  assert (Hempty : files output = Some [] ->
            forall dc',
              store (resume (has_entry Uri_file (Some F) dc) progress (Some F) dc') =
                if bool_decide (is_Some (dc !! Uri_file F))
                then delete (Uri_file F) dc' else dc').
  { intros Hf dc'.
    rewrite (runAnalysis_resume_report ws config JSON_parse execa Uri_file
               _ _ _ _ _ _ Hr Hf).
    simpl. rewrite HF. simpl. unfold processOutput. rewrite Hf. simpl.
    by destruct (bool_decide _). }
  assert (Hkeep : forall entries,
            files output = Some entries -> entries <> [] ->
            ~ flagged ws config Uri_file entries (Uri_file F) ->
            store (run progress (Some F) dc) !! Uri_file F = dc !! Uri_file F).
  { intros entries Hf Hne Hk. unfold runAnalysis.
    rewrite (runAnalysis_resume_report ws config JSON_parse execa Uri_file
               _ _ _ _ _ _ Hr Hf).
    destruct entries as [|en rest]; [done|].
    change (Z.of_nat (length (en :: rest)) =? 0) with false.
    simpl. rewrite HF. simpl.
    apply processOutput_unflagged. intros entries' Hf'.
    by assert (entries' = en :: rest) as -> by congruence. }
  split; [done|]. split; [|split; [done|]].
  - intros Hf Hin. unfold runAnalysis. rewrite (Hempty Hf dc).
    rewrite bool_decide_eq_true_2 by done.
    split; [done|]. apply lookup_delete_eq.
  - intros entries Hf Hne Hk. apply (Hkeep entries Hf Hne).
    intros (p & l & Hin & _ & Hp). by apply (Hk p _ Hin).
Qed.

End SingleFile.

(** Saving [foo] while it is flagged: a report with no file removes its
    entry, a report about [bar] keeps it. *)
Lemma C3_single_file_bookkeeping_witness :
  JS.truthy Scenario.foo = true /\
  store (runAnalysis Scenario.root Scenario.settings
           (Scenario.parses_as Scenario.empty_report) Scenario.prints
           Scenario.file_uri
           false (Some Scenario.foo) Scenario.flagged_store)
    !! Scenario.file_uri Scenario.foo = None /\
  store (runAnalysis Scenario.root Scenario.settings
           (Scenario.parses_as Scenario.bar_report) Scenario.prints
           Scenario.file_uri
           false (Some Scenario.foo) Scenario.flagged_store)
    !! Scenario.file_uri Scenario.foo
    = Scenario.flagged_store !! Scenario.file_uri Scenario.foo.
Proof.
  split; [reflexivity|]. split.
  - destruct (C3_single_file_bookkeeping Scenario.root Scenario.settings
                (Scenario.parses_as Scenario.empty_report) Scenario.prints
                Scenario.file_uri
                false Scenario.foo Scenario.flagged_store Scenario.empty_report
                eq_refl eq_refl) as (_ & Hdel & _).
    apply Hdel; [reflexivity|vm_compute; eauto].
  - destruct (C3_single_file_bookkeeping Scenario.root Scenario.settings
                (Scenario.parses_as Scenario.bar_report) Scenario.prints
                Scenario.file_uri
                false Scenario.foo Scenario.flagged_store Scenario.bar_report
                eq_refl eq_refl) as (_ & _ & _ & Hkeep).
    apply (Hkeep _ eq_refl); [discriminate|].
    intros p fd Hin. apply list_elem_of_singleton in Hin as [= -> _].
    vm_compute. discriminate.
Defined.

(** C3 as it is stated fails: a save of [foo] answered by a report that
    lists [foo] with no violation, hence zero files with findings, does
    not delete the entry that [foo] had. *)
Lemma C3_counterexample :
  ~ (forall ws config JSON_parse execa Uri_file progress F dc output entries,
       JS.truthy F = true ->
       report_of ws config JSON_parse execa progress (Some F) = Some output ->
       files output = Some entries ->
       Forall (fun entry => no_findings (snd entry)) entries ->
       is_Some (dc !! Uri_file F) ->
       store (runAnalysis ws config JSON_parse execa Uri_file
                progress (Some F) dc) !! Uri_file F = None).
Proof.
  intros H.
  specialize (H Scenario.root Scenario.settings
                (Scenario.parses_as Scenario.clean_report) Scenario.prints
                Scenario.file_uri false Scenario.foo Scenario.flagged_store
                Scenario.clean_report
                [(Scenario.foo_reported, FileObject (Messages []))]
                eq_refl eq_refl eq_refl).
  assert (Hclean : Forall (fun entry => no_findings (snd entry))
                     [(Scenario.foo_reported, FileObject (Messages []))])
    by (constructor; [reflexivity|constructor]).
  assert (Hhad : is_Some (Scenario.flagged_store !! Scenario.file_uri Scenario.foo))
    by (vm_compute; eauto).
  specialize (H Hclean Hhad). vm_compute in H. discriminate.
Qed.

(** ** The end-to-end scenario *)

(** C4, with the column the code computes: applying the scenario's report
    with [dockerVolumePath] ["/app"] and workspace root ["/home/user/proj"]
    leaves exactly one store entry, under the key of
    ["/home/user/proj/src/Foo.php"], holding exactly one record: line 9,
    from column 0 to column 17 (the length of the message), severity
    error, and a reference that ends in the rule identifier. *)
Theorem C4_end_to_end (Uri_file : string -> string) (progress : bool) (dc : Store) :
  handle Scenario.root Scenario.settings Uri_file Scenario.report progress dc =
    {| store := {[ Uri_file Scenario.foo := [Scenario.record 9 17] ]};
       ui := progress_report progress (Some "found 1 violations"%string) 100;
       settled := Resolved (Some true) |} /\
  processOutput Scenario.root Scenario.settings Uri_file Scenario.report ∅ =
    ({[ Uri_file Scenario.foo := [Scenario.record 9 17] ]}, Resolved (Some true)) /\
  store_key Scenario.root Scenario.settings "/app/src/Foo.php" =
    "/home/user/proj/src/Foo.php"%string /\
  String.length (message Scenario.undefined_method) = 17%nat /\
  diag_severity (Scenario.record 9 17) = SeverityError /\
  code_target (diag_code (Scenario.record 9 17)) =
    "https://phpstan.org/error-identifiers/" +:+ "method.notFound".
Proof.
  repeat split; reflexivity.
Qed.

(** C4 as it is stated fails: the record does not end at column 16. *)
Lemma C4_counterexample :
  store (handle Scenario.root Scenario.settings Scenario.file_uri
           Scenario.report true ∅)
    <> {[ Scenario.file_uri Scenario.foo := [Scenario.record 9 16] ]}.
Proof.
  intros H.
  apply (f_equal (fun m : Store => m !! Scenario.file_uri Scenario.foo)) in H.
  vm_compute in H. discriminate.
Qed.

(** ** Line numbers *)

(** C5: whenever the loop over [messages] produces its records, which it
    does when no message is empty, the record made for a violation whose
    line is a safe integer L sits on line max(0, L - 1), at both ends of
    its range, one record per violation in the order of the report; L = 0
    and L = 1 both give line 0. *)
Theorem C5_zero_based_line (l : list Violation) (ds : list Diagnostic) :
  (Forall (fun v => JS.truthy (message v) = true) l ->
   exists ds', fileDiagnostics (FileObject (Messages l)) = inr ds' /\
               length ds' = length l) /\
  (fileDiagnostics (FileObject (Messages l)) = inr ds ->
   Forall (fun v => JS.safe_integer (line v)) l ->
   Forall2
     (fun v d =>
        line_of (range_start (diag_range d)) = Z.max 0 (line v - 1) /\
        line_of (range_end (diag_range d)) = Z.max 0 (line v - 1) /\
        (line v = 0 \/ line v = 1 -> line_of (range_start (diag_range d)) = 0))
     l ds).
Proof.
  split.
  - intros Hall. exists (record_of <$> l). simpl.
    split; [by apply to_diagnostics_total|by rewrite length_fmap].
  - simpl. intros [-> _]%to_diagnostics_inr Hsafe.
    induction Hsafe as [|v l _ _ IH]; simpl; constructor; [|done].
    split; [done|]. split; [done|]. cbn. unfold JS.Math_max. lia.
Qed.

(** Three violations, on lines 10, 0 and 1. *)
Lemma C5_zero_based_line_witness :
  let on (L : Z) :=
    {| message := "Undefined method."; line := L;
       identifier := "method.notFound"; ignorable := false |} in
  exists d10 d0 d1,
    fileDiagnostics (FileObject (Messages [on 10; on 0; on 1])) = inr [d10; d0; d1] /\
    line_of (range_start (diag_range d10)) = 9 /\
    line_of (range_start (diag_range d0)) = 0 /\
    line_of (range_start (diag_range d1)) = 0.
Proof.
  intros on.
  destruct (C5_zero_based_line [on 10; on 0; on 1]
              (record_of <$> [on 10; on 0; on 1])) as [_ Hlines].
  assert (Hsafe : Forall (fun v => JS.safe_integer (line v)) [on 10; on 0; on 1]).
  { repeat constructor; simpl; discriminate. }
  specialize (Hlines eq_refl Hsafe).
  exists (record_of (on 10)), (record_of (on 0)), (record_of (on 1)).
  split; [reflexivity|].
  apply Forall2_cons in Hlines as [(H10 & _) Hlines].
  apply Forall2_cons in Hlines as [(H0 & _) Hlines].
  apply Forall2_cons in Hlines as [(H1 & _) _].
  split; [exact H10|]. split; [exact H0|exact H1].
Defined.

(** ** The command line *)

Section CommandLine.

Context (ws : string) (config : Config).

Lemma replace_prefix_dot (rest : string) :
  JS.replace (ws +:+ rest) ws "." = "." +:+ rest.
Proof. unfold JS.replace. by rewrite split_first_prefix. Qed.

(** C6, as the code has it: the command line is [{phpCommand} {command}]
    in whole-project mode and [{phpCommand} {command} {relativeFilePath}]
    in single-file mode, where [relativeFilePath] is [filePath] with the
    first occurrence of the workspace root replaced by a dot: a path under
    the workspace root becomes a dot followed by the rest of the path, and
    a path in which the root does not occur is passed as it is. *)
Theorem C6_command_line :
  prepareCommand ws config None = phpCommand config +:+ " " +:+ command config /\
  (forall filePath,
     JS.truthy filePath = true ->
     prepareCommand ws config (Some filePath) =
       phpCommand config +:+ " " +:+ command config +:+ " "
         +:+ JS.replace filePath ws ".") /\
  (forall rest,
     JS.truthy (ws +:+ rest) = true ->
     prepareCommand ws config (Some (ws +:+ rest)) =
       phpCommand config +:+ " " +:+ command config +:+ " " +:+ "." +:+ rest) /\
  (forall filePath,
     JS.truthy filePath = true ->
     JS.split_first ws filePath = None ->
     prepareCommand ws config (Some filePath) =
       phpCommand config +:+ " " +:+ command config +:+ " " +:+ filePath).
Proof.
  split; [reflexivity|]. split; [|split].
  - intros filePath H. unfold prepareCommand. by rewrite H.
  - intros rest H. unfold prepareCommand. by rewrite H, replace_prefix_dot.
  - intros filePath H Hno. unfold prepareCommand, JS.replace. by rewrite H, Hno.
Qed.

End CommandLine.

(** The command lines for a file under the workspace root and for a file
    outside it. *)
Lemma C6_command_line_witness :
  JS.truthy Scenario.foo = true /\
  prepareCommand Scenario.root Scenario.settings (Some Scenario.foo) =
    "php vendor/bin/phpstan analyse --error-format=json ./src/Foo.php"%string /\
  prepareCommand Scenario.root Scenario.settings (Some "/tmp/x.php"%string) =
    "php vendor/bin/phpstan analyse --error-format=json /tmp/x.php"%string.
Proof.
  destruct (C6_command_line Scenario.root Scenario.settings)
    as (_ & _ & Hunder & Hother).
  split; [reflexivity|]. split.
  - apply (Hunder "/src/Foo.php"%string). reflexivity.
  - apply (Hother "/tmp/x.php"%string); reflexivity.
Defined.

(** C6 as it is stated fails: for a file under the workspace root the code
    does not pass the path with the root stripped. *)
Lemma C6_counterexample :
  prepareCommand Scenario.root Scenario.settings (Some Scenario.foo)
    <> spec_commandLine Scenario.root Scenario.settings (Some Scenario.foo) /\
  spec_commandLine Scenario.root Scenario.settings (Some Scenario.foo) =
    "php vendor/bin/phpstan analyse --error-format=json /src/Foo.php"%string /\
  prepareCommand Scenario.root Scenario.settings (Some Scenario.foo) =
    "php vendor/bin/phpstan analyse --error-format=json ./src/Foo.php"%string.
Proof. split; [vm_compute; discriminate|]. split; reflexivity. Qed.

(** ** Classification of a failed invocation *)

Section ErrorClassification.

Context (ws : string) (config : Config).
Context (JSON_parse : string -> option Report).
Context (Uri_file : string -> string).


End ErrorClassification.


(** ** The store after a failed pass *)

Section FailedPass.

Context (ws : string) (config : Config).
Context (JSON_parse : string -> option Report) (execa : string -> ExecResult).
Context (Uri_file : string -> string).

Local Abbreviation run := (runAnalysis ws config JSON_parse execa Uri_file).
Local Abbreviation the_report := (report_of ws config JSON_parse execa).


End FailedPass.



(** ** The status message *)

Section StatusMessage.

Context (ws : string) (config : Config) (Uri_file : string -> string).

(** C9: in whole-project mode [handle] reports one status message; it is
    ["done"] when [totals.file_errors] is 0 or absent, and, when it is a
    safe integer N > 0, ["found "], the decimal digits of N without a
    leading zero, and [" violations"]; for N = 3 it is
    ["found 3 violations"]. *)
Theorem C9_status_message (output : Report) (dc : Store) :
  ui (handle ws config Uri_file output true dc) =
    [ProgressReport (Some (status_message output)) 100] /\
  (totals output = None -> status_message output = "done"%string) /\
  (forall t,
     totals output = Some t ->
     file_errors t = None \/ file_errors t = Some 0 ->
     status_message output = "done"%string) /\
  (forall t n,
     totals output = Some t -> file_errors t = Some n ->
     0 < n -> JS.safe_integer n ->
     exists digits,
       status_message output = "found " +:+ digits +:+ " violations" /\
       JS.decimal_value digits = Some n /\
       JS.leading_zero digits = false) /\
  (forall t,
     totals output = Some t -> file_errors t = Some 3 ->
     status_message output = "found 3 violations"%string).
Proof.
  split; [|split; [|split; [|split]]].
  - unfold handle. by destruct (processOutput _ _ _ _ _).
  - intros Ht. unfold status_message, violationCount. by rewrite Ht.
  - intros t Ht [Hn|Hn]; unfold status_message, violationCount;
      by rewrite Ht, Hn.
  - intros t n Ht Hn Hpos _. unfold status_message, violationCount.
    rewrite Ht, Hn.
    destruct (n =? 0) eqn:E; [apply Z.eqb_eq in E; lia|].
    rewrite (proj2 (Z.ltb_lt 0 n) Hpos).
    exists (JS.number_to_string n). split; [done|].
    by apply number_to_string_decimal.
  - intros t Ht Hn. unfold status_message, violationCount. by rewrite Ht, Hn.
Qed.

End StatusMessage.

(** Three violations, a dozen, none, and no [totals] at all. *)
Lemma C9_status_message_witness :
  ui (handle Scenario.root Scenario.settings Scenario.file_uri
        Scenario.three_report true Scenario.flagged_store) =
    [ProgressReport (Some "found 3 violations"%string) 100] /\
  (exists digits,
     status_message {| files := Some []; totals := Some {| file_errors := Some 12 |} |}
       = "found " +:+ digits +:+ " violations" /\
     JS.decimal_value digits = Some 12) /\
  ui (handle Scenario.root Scenario.settings Scenario.file_uri
        Scenario.empty_report true Scenario.flagged_store) =
    [ProgressReport (Some "done"%string) 100] /\
  status_message {| files := Some []; totals := None |} = "done"%string.
Proof.
  destruct (C9_status_message Scenario.root Scenario.settings Scenario.file_uri
              Scenario.three_report Scenario.flagged_store)
    as (Hui3 & _ & _ & _ & Hthree).
  destruct (C9_status_message Scenario.root Scenario.settings Scenario.file_uri
              {| files := Some []; totals := Some {| file_errors := Some 12 |} |}
              Scenario.flagged_store)
    as (_ & _ & _ & Hfound & _).
  destruct (C9_status_message Scenario.root Scenario.settings Scenario.file_uri
              Scenario.empty_report Scenario.flagged_store)
    as (Hui0 & _ & Hdone & _).
  destruct (C9_status_message Scenario.root Scenario.settings Scenario.file_uri
              {| files := Some []; totals := None |} Scenario.flagged_store)
    as (_ & Habsent & _).
  split; [|split; [|split]].
  - rewrite Hui3. by rewrite (Hthree {| file_errors := Some 3 |} eq_refl eq_refl).
  - destruct (Hfound {| file_errors := Some 12 |} 12 eq_refl eq_refl)
      as (digits & Hmsg & Hvalue & _);
      [reflexivity|split; discriminate|].
    by exists digits.
  - rewrite Hui0. rewrite (Hdone {| file_errors := Some 0 |} eq_refl);
      [reflexivity|by right].
  - apply Habsent. reflexivity.
Defined.

(** ** Store keys *)

Section StoreKey.

Context (ws : string) (config : Config).

Lemma split_first_complete (pat b' a' : string) :
  JS.split_first pat (b' +:+ pat +:+ a') <> None.
Proof.
  induction b' as [|c b' IH].
  - rewrite append_nil. by rewrite split_first_prefix.
  - rewrite append_cons. simpl.
    destruct (JS.strip_prefix pat _); [done|].
    by destruct (JS.split_first pat (b' +:+ pat +:+ a')) as [[b a]|].
Qed.

Lemma replace_pattern_free (s pat replacement before after : string) :
  JS.pattern_free replacement = true ->
  JS.split_first pat s = Some (before, after) ->
  JS.replace s pat replacement = before +:+ replacement +:+ after.
Proof.
  intros Hd Hs. unfold JS.replace. rewrite Hs.
  by rewrite GetSubstitution_pattern_free.
Qed.

Lemma replace_dollar_free (s pat replacement before after : string) :
  JS.dollar_free replacement = true ->
  JS.split_first pat s = Some (before, after) ->
  JS.replace s pat replacement = before +:+ replacement +:+ after.
Proof. intros Hd. by apply replace_pattern_free, dollar_free_pattern_free. Qed.

(** The key of a reported path when the workspace root holds none of the
    patterns that [replace] expands: the first occurrence of
    [dockerVolumePath], wherever it is, is replaced by the workspace root;
    an empty [dockerVolumePath] prepends the workspace root; a path
    without occurrence is its own key. *)
Lemma store_key_literal_root (filePath : string) :
  JS.pattern_free ws = true ->
  (dockerVolumePath config = EmptyString ->
   store_key ws config filePath = ws +:+ filePath) /\
  (forall b' a',
     filePath = b' +:+ dockerVolumePath config +:+ a' ->
     exists before after,
       filePath = before +:+ dockerVolumePath config +:+ after /\
       (String.length before <= String.length b')%nat /\
       store_key ws config filePath = before +:+ ws +:+ after) /\
  ((forall b' a', filePath <> b' +:+ dockerVolumePath config +:+ a') ->
   store_key ws config filePath = filePath).
Proof.
  intros Hd. unfold store_key. split; [|split].
  - intros ->.
    by rewrite (replace_pattern_free _ _ _ _ _ Hd (split_first_empty filePath)).
  - intros b' a' Hocc.
    destruct (JS.split_first (dockerVolumePath config) filePath)
      as [[before after]|] eqn:Hs.
    + exists before, after. split; [by apply split_first_Some|]. split.
      * by apply (split_first_minimal _ _ _ _ Hs b' a').
      * by apply replace_pattern_free.
    + exfalso. rewrite Hocc in Hs. by apply split_first_complete in Hs.
  - intros Hno. unfold JS.replace.
    destruct (JS.split_first (dockerVolumePath config) filePath)
      as [[before after]|] eqn:Hs; [|done].
    exfalso. by apply (Hno before after), split_first_Some.
Qed.

End StoreKey.

(** A workspace root with a single dollar sign is substituted as it is. *)
Lemma store_key_single_dollar :
  store_key "/home/user/my$proj" Scenario.local_settings "/src/Foo.php" =
    "/home/user/my$proj" +:+ "/src/Foo.php".
Proof.
  by apply (store_key_literal_root "/home/user/my$proj" Scenario.local_settings
              "/src/Foo.php"%string eq_refl).
Qed.

(** C10, at the input where the code departs from it: with an empty
    [dockerVolumePath] and a workspace folder named [my$$proj] the key of a
    reported path is not the workspace root followed by the path, because
    [replace] reads the [$$] of its replacement text as one dollar. *)
Theorem C10_dollar_pattern_in_root :
  store_key Scenario.dollar_root Scenario.local_settings "/src/Foo.php" =
    "/home/user/my$proj/src/Foo.php"%string /\
  Scenario.dollar_root +:+ "/src/Foo.php" =
    "/home/user/my$$proj/src/Foo.php"%string /\
  store_key Scenario.dollar_root Scenario.local_settings "/src/Foo.php" <>
    Scenario.dollar_root +:+ "/src/Foo.php".
Proof.
  split; [reflexivity|]. split; [reflexivity|].
  vm_compute. discriminate.
Qed.

(** * Further properties of the code *)

(** ** The result mapper in merge mode *)

Section MapperProperties.

Context (ws : string) (config : Config) (Uri_file : string -> string).

(** X1: when several entries of a report are stored under the same
    remapped path, the last of them that has a violation decides what the
    key of that path holds, provided that no entry with a violation and a
    different remapped path has the same key in the collection (and that
    the lines are safe integers, for the records to be the ones the model
    computes). *)
Theorem X1_processOutput_last_entry_wins
    (output : Report) (dc dc' : Store) (b : bool)
    (pre post : list (string * FileData)) (p : string) (l : list Violation) :
  processOutput ws config Uri_file output dc = (dc', Resolved (Some b)) ->
  files output = Some (pre ++ (p, FileObject (Messages l)) :: post) ->
  l <> [] ->
  Forall (fun v => JS.safe_integer (line v)) l ->
  (forall q l', (q, FileObject (Messages l')) ∈ post -> l' <> [] ->
     store_key ws config q <> store_key ws config p) ->
  (forall q l', (q, FileObject (Messages l')) ∈ pre ++ post -> l' <> [] ->
     Uri_file (store_key ws config q) = Uri_file (store_key ws config p) ->
     store_key ws config q = store_key ws config p) ->
  dc' !! Uri_file (store_key ws config p) = Some (record_of <$> l).
Proof.
  intros Hp Hf Hl _ Hpost Halias.
  destruct (processOutput_cases ws config Uri_file output dc)
    as [(e & He & _)|(entries & m & b' & Hf' & Hc & Hp' & _)]; [congruence|].
  assert (entries = pre ++ (p, FileObject (Messages l)) :: post) as -> by congruence.
  assert (dc' = publish Uri_file m dc) as -> by congruence.
  assert (Hnodup : NoDup m.*1).
  { apply (collect_NoDup _ _ _ _ _ Hc). apply NoDup_nil_2. }
  rewrite collect_app in Hc.
  destruct (collect ws config pre []) as [e|m1] eqn:Hpre; [done|].
  simpl in Hc.
  destruct (to_diagnostics l) as [e|ds] eqn:Hds; [done|].
  destruct (fileDiagnostics_Messages l ds Hl Hds) as [Hlen _].
  rewrite Hlen in Hc.
  pose proof (collect_keeps _ _ _ _ _ _ ds Hpost Hc (Map_set_here _ _ _)) as Hin.
  rewrite publish_lookup.
  rewrite (last_set_unique Uri_file _ m (store_key ws config p) ds Hin eq_refl).
  - by apply to_diagnostics_inr in Hds as [-> _].
  - intros q' ds' Hin' Hq'.
    assert (q' = store_key ws config p) as ->; [|by eapply NoDup_fst_agree].
    assert (Hall : collect ws config (pre ++ (p, FileObject (Messages l)) :: post) []
                   = inr m).
    { rewrite collect_app, Hpre. simpl. by rewrite Hds, Hlen. }
    destruct (collect_elem _ _ _ _ _ _ _ Hall Hin')
      as [?%elem_of_nil|(q & l' & Hq & Hl' & <- & _)]; [done|].
    apply elem_of_app in Hq as [Hq|Hq].
    + apply (Halias q l'); [apply elem_of_app; by left|done|done].
    + apply elem_of_cons in Hq as [[= -> _]|Hq]; [done|].
      apply (Halias q l'); [apply elem_of_app; by right|done|done].
Qed.

(** X2: the mapper never removes an entry, and it leaves alone every key
    of the collection that the report does not flag. *)
Theorem X2_processOutput_frame (output : Report) (dc : Store) (k : string) :
  (is_Some (dc !! k) ->
   is_Some (fst (processOutput ws config Uri_file output dc) !! k)) /\
  ((forall entries, files output = Some entries ->
      ~ flagged ws config Uri_file entries k) ->
   fst (processOutput ws config Uri_file output dc) !! k = dc !! k).
Proof.
  destruct (processOutput_cases ws config Uri_file output dc)
    as [(e & -> & _)|(entries & m & b & Hf & Hc & -> & _)]; [done|]. simpl.
  rewrite publish_lookup. split.
  - intros Hk. by destruct (last_set Uri_file k m).
  - intros Hk. destruct (last_set Uri_file k m) as [ds|] eqn:Hm; [|done].
    destruct (Hk entries Hf).
    apply (published_flagged ws config Uri_file entries m k Hc). eauto.
Qed.

(** X3: whatever a key of the collection holds after the mapper ran is
    either what it held before or the records of one entry of the report
    that has a violation and is stored under that key: one record per
    violation, in the order of the report, none with an empty message;
    when the lines are safe integers the records are the ones the model
    computes. *)
Theorem X3_processOutput_records
    (output : Report) (dc : Store) (k : string) (ds : list Diagnostic) :
  fst (processOutput ws config Uri_file output dc) !! k = Some ds ->
  dc !! k = Some ds \/
  exists entries p l,
    files output = Some entries /\
    (p, FileObject (Messages l)) ∈ entries /\ l <> [] /\
    Uri_file (store_key ws config p) = k /\
    length ds = length l /\
    Forall (fun v => JS.truthy (message v) = true) l /\
    (Forall (fun v => JS.safe_integer (line v)) l -> ds = record_of <$> l).
Proof.
  destruct (processOutput_cases ws config Uri_file output dc)
    as [(e & -> & _)|(entries & m & b & Hf & Hc & -> & _)]; [by left|]. simpl.
  rewrite publish_lookup.
  destruct (last_set Uri_file k m) as [ds'|] eqn:Hm; [|by left].
  intros [= <-].
  destruct (published_records ws config Uri_file _ _ _ _ Hc Hm)
    as (p & l & Hin & Hl & Hk & -> & Hall).
  right. exists entries, p, l. by rewrite length_fmap.
Qed.

End MapperProperties.

(** Two entries of one report with the same remapped path. *)
Lemma X1_processOutput_last_entry_wins_witness :
  let output :=
    {| files :=
         Some [("/app/src/Foo.php"%string, FileObject (Messages [Scenario.undefined_method]));
               ("/home/user/proj/src/Foo.php"%string,
                FileObject (Messages [Scenario.undefined_method; Scenario.undefined_method]))];
       totals := None |} in
  fst (processOutput Scenario.root Scenario.settings Scenario.file_uri output
         Scenario.flagged_store)
    !! Scenario.file_uri Scenario.foo
  = Some (record_of <$> [Scenario.undefined_method; Scenario.undefined_method]).
Proof.
  intros output.
  apply (X1_processOutput_last_entry_wins Scenario.root Scenario.settings
           Scenario.file_uri
           output Scenario.flagged_store
           (fst (processOutput Scenario.root Scenario.settings Scenario.file_uri
                   output Scenario.flagged_store)) true
           [("/app/src/Foo.php"%string, FileObject (Messages [Scenario.undefined_method]))]
           []
           "/home/user/proj/src/Foo.php"%string
           [Scenario.undefined_method; Scenario.undefined_method]).
  - reflexivity.
  - reflexivity.
  - discriminate.
  - repeat constructor; discriminate.
  - intros q l Hin. by apply elem_of_nil in Hin.
  - intros q l Hin _ _. apply list_elem_of_singleton in Hin as [= -> _].
    reflexivity.
Defined.

(** A report about [bar] applied to a store that flags [foo]. *)
Lemma X2_processOutput_frame_witness :
  is_Some (fst (processOutput Scenario.root Scenario.settings Scenario.file_uri
                  Scenario.bar_report Scenario.flagged_store)
             !! Scenario.file_uri Scenario.foo) /\
  fst (processOutput Scenario.root Scenario.settings Scenario.file_uri
         Scenario.bar_report Scenario.flagged_store)
    !! Scenario.file_uri Scenario.foo
    = Scenario.flagged_store !! Scenario.file_uri Scenario.foo.
Proof.
  destruct (X2_processOutput_frame Scenario.root Scenario.settings
              Scenario.file_uri
              Scenario.bar_report Scenario.flagged_store
              (Scenario.file_uri Scenario.foo))
    as [Hkeep Hsame].
  split.
  - apply Hkeep. vm_compute. eauto.
  - apply Hsame. intros entries [= <-] (q & l & Hin & _ & Hq).
    apply list_elem_of_singleton in Hin as [= -> _].
    vm_compute in Hq. discriminate.
Defined.

(** The entry of [bar] after a report about [bar]. *)
Lemma X3_processOutput_records_witness :
  exists entries p l,
    files Scenario.bar_report = Some entries /\
    (p, FileObject (Messages l)) ∈ entries /\
    Scenario.file_uri (store_key Scenario.root Scenario.settings p)
      = Scenario.file_uri Scenario.bar /\
    record_of <$> [Scenario.undefined_method] = record_of <$> l.
Proof.
  destruct (X3_processOutput_records Scenario.root Scenario.settings
              Scenario.file_uri
              Scenario.bar_report Scenario.flagged_store
              (Scenario.file_uri Scenario.bar)
              [record_of Scenario.undefined_method] eq_refl)
    as [Hold|(entries & p & l & Hf & Hin & _ & Hk & Hlen & _ & Hds)].
  - vm_compute in Hold. discriminate.
  - exists entries, p, l. repeat split; try done.
    apply Hds. injection Hf as <-.
    apply list_elem_of_singleton in Hin. injection Hin as _ ->.
    repeat constructor; discriminate.
Defined.

(** ** The analysis runner *)

Section RunnerProperties.

Context (ws : string) (config : Config).
Context (JSON_parse : string -> option Report) (execa : string -> ExecResult).
Context (Uri_file : string -> string).

Local Abbreviation run := (runAnalysis ws config JSON_parse execa Uri_file).

(** X4: a pass that is run again on the store it left, with the tool
    answering the same, ends the same way and leaves the store as it is. *)
Theorem X4_runAnalysis_idempotent
    (progress : bool) (filePath : option string) (dc : Store) :
  runAnalysis ws config JSON_parse execa Uri_file progress filePath
    (store (runAnalysis ws config JSON_parse execa Uri_file progress filePath dc)) =
    runAnalysis ws config JSON_parse execa Uri_file progress filePath dc.
Proof.
  unfold runAnalysis, runAnalysis_resume.
  destruct (invoke progress _) as [shown|text]; [done|].
  destruct (JSON_parse text) as [output|]; [|done].
  destruct (files output) as [entries|] eqn:Hf; [|done].
  destruct (single_file filePath) eqn:Hsf; [|reflexivity].
  destruct filePath as [F|]; [|done]. simpl in Hsf.
  unfold has_entry. rewrite Hsf. simpl.
  destruct entries as [|en rest].
  - simpl. unfold processOutput. rewrite Hf. simpl.
    destruct (decide (is_Some (dc !! Uri_file F))) as [Hin|Hin].
    + rewrite (bool_decide_eq_true_2 _ Hin). simpl.
      rewrite bool_decide_eq_false_2; [done|].
      rewrite lookup_delete_eq. by intros [? ?].
    + by rewrite !(bool_decide_eq_false_2 _ Hin).
  - change (Z.of_nat (length (en :: rest)) =? 0) with false. simpl.
    pose proof (processOutput_again ws config Uri_file output dc) as Hagain.
    destruct (processOutput ws config Uri_file output dc) as [dc' s] eqn:Hp.
    simpl in *. by rewrite Hagain.
Qed.

(** X5: an empty file name counts as no file name: the pass is the
    whole-project pass, which clears the store. *)
Theorem X5_runAnalysis_empty_path (progress : bool) (dc : Store) :
  run progress (Some EmptyString) dc = run progress None dc /\
  prepareCommand ws config (Some EmptyString) = prepareCommand ws config None /\
  (forall output entries,
     report_of ws config JSON_parse execa progress (Some EmptyString) = Some output ->
     files output = Some entries ->
     run progress (Some EmptyString) dc = handle ws config Uri_file output progress ∅).
Proof.
  split; [reflexivity|]. split; [reflexivity|].
  intros output entries Hr Hf. unfold runAnalysis.
  by rewrite (runAnalysis_resume_report ws config JSON_parse execa Uri_file
                _ _ _ _ _ _ Hr Hf).
Qed.

(** X6: in the command line the first occurrence of the workspace root in
    the file path, wherever it is, becomes a dot; nothing else of the path
    changes. *)
Theorem X6_prepareCommand_first_occurrence (filePath b' a' : string) :
  JS.truthy filePath = true ->
  filePath = b' +:+ ws +:+ a' ->
  exists before after,
    filePath = before +:+ ws +:+ after /\
    (String.length before <= String.length b')%nat /\
    prepareCommand ws config (Some filePath) =
      phpCommand config +:+ " " +:+ command config +:+ " "
        +:+ before +:+ "." +:+ after.
Proof.
  intros Ht Hocc. unfold prepareCommand. rewrite Ht.
  destruct (JS.split_first ws filePath) as [[before after]|] eqn:Hs.
  - exists before, after. split; [by apply split_first_Some|]. split.
    + by apply (split_first_minimal _ _ _ _ Hs b' a').
    + unfold JS.replace. by rewrite Hs.
  - exfalso. rewrite Hocc in Hs. by apply split_first_complete in Hs.
Qed.

(** X7: when the invocation fails with neither stdout nor stderr, the pass
    parses the default text; if that yields an object without [files], as
    [JSON.parse] does, the pass is rejected with a type error, shows
    nothing and leaves the store as it was. *)
Theorem X7_runAnalysis_default_output
    (progress : bool) (filePath : option string) (dc : Store)
    (stdout stderr : option string) :
  execa (prepareCommand ws config filePath) = ExecaError stdout stderr ->
  JS.truthy_opt stdout = false ->
  JS.truthy_opt stderr = false ->
  JSON_parse "{}" = Some {| files := None; totals := None |} ->
  run progress filePath dc =
    {| store := dc; ui := []; settled := Rejected TypeError |}.
Proof.
  intros He Hout Herr Hparse.
  unfold runAnalysis, runAnalysis_resume, invoke. rewrite He, Herr. simpl.
  destruct stdout as [out|]; simpl in Hout; [rewrite Hout|]; by rewrite Hparse.
Qed.

(** X8: when the invocation throws something that is not an execa error,
    the pass resolves with the store as it was, and the error's message
    goes to the progress object only: a pass without one shows nothing. *)
Theorem X8_runAnalysis_other_error
    (progress : bool) (filePath : option string) (dc : Store) (msg : string) :
  execa (prepareCommand ws config filePath) = OtherError msg ->
  run progress filePath dc =
    {| store := dc;
       ui := if progress then [ProgressReport (Some msg) 100] else [];
       settled := Resolved None |}.
Proof.
  intros He. unfold runAnalysis, runAnalysis_resume, invoke. by rewrite He.
Qed.

(** X9: a pass on a saved file, which has no progress object, shows
    nothing at all, except the tool's stderr when the tool fails with
    stderr and without stdout; and then the store is as it was. *)
Theorem X9_runAnalysis_single_file_silent (F : string) (dc : Store) :
  JS.truthy F = true ->
  ui (run false (Some F) dc) = [] \/
  exists stdout err,
    execa (prepareCommand ws config (Some F)) = ExecaError stdout (Some err) /\
    JS.truthy err = true /\ JS.truthy_opt stdout = false /\
    ui (run false (Some F) dc) = [ShowErrorMessage ("Phpstan: " +:+ err)] /\
    store (run false (Some F) dc) = dc.
Proof.
  intros HF. unfold runAnalysis, runAnalysis_resume, invoke.
  destruct (execa _) as [out|stdout stderr|msg] eqn:He; simpl.
  - left. destruct (JSON_parse out) as [output|]; [|done].
    destruct (files output); [|done]. rewrite HF.
    by destruct (processOutput _ _ _ _ _).
  - destruct (JS.truthy_opt stderr && negb (JS.truthy_opt stdout)) eqn:Hc.
    + right. destruct stderr as [err|]; [|done]. exists stdout, err.
      apply andb_prop in Hc as [Herr Hout]. apply negb_true_iff in Hout.
      by repeat split.
    + left.
      destruct (match stdout with
                | Some out => if JS.truthy out then inr out else inr "{}"%string
                | None => inr "{}"%string
                end) as [shown|text] eqn:Ht.
      { by destruct stdout as [out|]; [destruct (JS.truthy out)|]. }
      destruct stdout as [out|]; [destruct (JS.truthy out)|];
        injection Ht as <-;
        (destruct (JSON_parse _) as [output|]; [|done]);
        (destruct (files output); [|done]); rewrite HF;
        by destruct (processOutput _ _ _ _ _).
  - by left.
Qed.

End RunnerProperties.

(** A save event with an empty file name, on a tool that prints a report
    with no file. *)
Lemma X5_runAnalysis_empty_path_witness :
  runAnalysis Scenario.root Scenario.settings
    (Scenario.parses_as Scenario.empty_report) Scenario.prints Scenario.file_uri
    false (Some EmptyString) Scenario.flagged_store =
  {| store := ∅; ui := []; settled := Resolved (Some false) |}.
Proof.
  rewrite (proj2 (proj2 (X5_runAnalysis_empty_path Scenario.root Scenario.settings
             (Scenario.parses_as Scenario.empty_report) Scenario.prints
             Scenario.file_uri
             false Scenario.flagged_store))
             Scenario.empty_report [] eq_refl eq_refl).
  reflexivity.
Defined.

(** A backup copy of the workspace, whose path holds the workspace root
    after ["/backup"]. *)
Lemma X6_prepareCommand_first_occurrence_witness :
  exists before after,
    "/backup/home/user/proj/src/Foo.php"%string =
      before +:+ Scenario.root +:+ after /\
    (String.length before <= 7)%nat /\
    prepareCommand Scenario.root Scenario.settings
      (Some "/backup/home/user/proj/src/Foo.php"%string) =
      "php" +:+ " " +:+ "vendor/bin/phpstan analyse --error-format=json" +:+ " "
        +:+ before +:+ "." +:+ after.
Proof.
  apply (X6_prepareCommand_first_occurrence Scenario.root Scenario.settings
           "/backup/home/user/proj/src/Foo.php"%string
           "/backup"%string "/src/Foo.php"%string); reflexivity.
Defined.

(** A tool that fails without a word, and a parser that reads the default
    text as the empty object. *)
Lemma X7_runAnalysis_default_output_witness :
  runAnalysis Scenario.root Scenario.settings
    (Scenario.parses_as {| files := None; totals := None |})
    (Scenario.answers (ExecaError (Some EmptyString) None)) Scenario.file_uri
    true None Scenario.flagged_store =
  {| store := Scenario.flagged_store; ui := []; settled := Rejected TypeError |}.
Proof.
  apply (X7_runAnalysis_default_output Scenario.root Scenario.settings
           (Scenario.parses_as {| files := None; totals := None |})
           (Scenario.answers (ExecaError (Some EmptyString) None))
           Scenario.file_uri
           true None Scenario.flagged_store (Some EmptyString) None);
    reflexivity.
Defined.

(** A save while the shell cannot be started. *)
Lemma X8_runAnalysis_other_error_witness :
  runAnalysis Scenario.root Scenario.settings
    (Scenario.parses_as Scenario.report)
    (Scenario.answers (OtherError "spawn /bin/zsh ENOENT")) Scenario.file_uri
    false (Some Scenario.foo) Scenario.flagged_store =
  {| store := Scenario.flagged_store; ui := []; settled := Resolved None |}.
Proof.
  apply (X8_runAnalysis_other_error Scenario.root Scenario.settings
           (Scenario.parses_as Scenario.report)
           (Scenario.answers (OtherError "spawn /bin/zsh ENOENT"))
           Scenario.file_uri
           false (Some Scenario.foo) Scenario.flagged_store
           "spawn /bin/zsh ENOENT"%string).
  reflexivity.
Defined.

(** A save of [foo] that finds one violation shows nothing. *)
Lemma X9_runAnalysis_single_file_silent_witness :
  JS.truthy Scenario.foo = true /\
  ui (runAnalysis Scenario.root Scenario.settings
        (Scenario.parses_as Scenario.report) Scenario.prints Scenario.file_uri
        false (Some Scenario.foo) Scenario.flagged_store) = [].
Proof.
  split; [reflexivity|].
  destruct (X9_runAnalysis_single_file_silent Scenario.root Scenario.settings
              (Scenario.parses_as Scenario.report) Scenario.prints
              Scenario.file_uri
              Scenario.foo Scenario.flagged_store eq_refl)
    as [Hsilent|(stdout & err & He & _)].
  - exact Hsilent.
  - discriminate He.
Defined.

(** ** Paths in and out of the container *)

Section PathProperties.

Context (ws : string) (config : Config).
Context (JSON_parse : string -> option Report) (execa : string -> ExecResult).
Context (Uri_file : string -> string).

Local Abbreviation run := (runAnalysis ws config JSON_parse execa Uri_file).

Lemma store_key_prefix (rest : string) :
  JS.dollar_free ws = true ->
  store_key ws config (dockerVolumePath config +:+ rest) = ws +:+ rest.
Proof.
  intros Hd. unfold store_key.
  by rewrite (replace_dollar_free _ _ _ _ _ Hd (split_first_prefix _ rest)).
Qed.

(** X10: when the workspace root holds no dollar sign, a reported path
    that starts with [dockerVolumePath] is stored under the workspace root
    followed by the rest of the path; so the container path of a saved
    file is stored under the name the file was saved with. *)
Theorem X10_store_key_container_prefix (rest : string) :
  JS.dollar_free ws = true ->
  store_key ws config (dockerVolumePath config +:+ rest) = ws +:+ rest.
Proof. apply store_key_prefix. Qed.

(** X11: a save of a file under the workspace root, answered by a report
    whose one entry is the file's container path with at least one
    violation, no empty message and safe integers as lines, puts exactly
    the new records under the key of the file's name, shows nothing, and
    leaves every other key as it was. *)
Theorem X11_save_replaces_entry
    (progress : bool) (rest : string) (l : list Violation)
    (output : Report) (dc : Store) :
  JS.truthy (ws +:+ rest) = true ->
  JS.dollar_free ws = true ->
  report_of ws config JSON_parse execa progress (Some (ws +:+ rest)) = Some output ->
  files output =
    Some [(dockerVolumePath config +:+ rest, FileObject (Messages l))] ->
  l <> [] ->
  Forall (fun v => JS.truthy (message v) = true) l ->
  Forall (fun v => JS.safe_integer (line v)) l ->
  run progress (Some (ws +:+ rest)) dc =
    {| store := <[Uri_file (ws +:+ rest) := record_of <$> l]> dc;
       ui := [];
       settled := Resolved (Some true) |}.
Proof.
  intros Ht Hd Hr Hf Hl Hall _. unfold runAnalysis.
  rewrite (runAnalysis_resume_report ws config JSON_parse execa Uri_file
             _ _ _ _ _ _ Hr Hf).
  simpl. rewrite Ht. unfold processOutput. rewrite Hf. simpl.
  rewrite (to_diagnostics_total l Hall).
  destruct (fileDiagnostics_Messages l _ Hl (to_diagnostics_total l Hall))
    as [Hlen _].
  rewrite Hlen. simpl. by rewrite (store_key_prefix rest Hd).
Qed.

(** X12: a save answered by a report that lists files but no violation
    (entries that are null, that have no [messages], or whose [messages]
    is empty) leaves the whole store as it was, the earlier records of the
    saved file included. *)
Theorem X12_save_without_findings
    (progress : bool) (F : string) (output : Report)
    (entries : list (string * FileData)) (dc : Store) :
  JS.truthy F = true ->
  report_of ws config JSON_parse execa progress (Some F) = Some output ->
  files output = Some entries ->
  entries <> [] ->
  Forall (fun entry => no_findings (snd entry)) entries ->
  run progress (Some F) dc =
    {| store := dc; ui := []; settled := Resolved (Some true) |}.
Proof.
  intros Ht Hr Hf Hne Hclean. unfold runAnalysis.
  rewrite (runAnalysis_resume_report ws config JSON_parse execa Uri_file
             _ _ _ _ _ _ Hr Hf).
  destruct entries as [|en rest]; [done|].
  change (Z.of_nat (length (en :: rest)) =? 0) with false.
  simpl. rewrite Ht. unfold processOutput. rewrite Hf.
  change (Z.of_nat (length (en :: rest)) =? 0) with false. cbv iota.
  by rewrite (collect_no_findings _ _ _ _ Hclean).
Qed.

(** X13: when [dockerVolumePath] is set to the workspace root itself, and
    that holds no dollar sign, every reported path is its own key. *)
Theorem X13_store_key_identity (filePath : string) :
  dockerVolumePath config = ws ->
  JS.dollar_free ws = true ->
  store_key ws config filePath = filePath.
Proof.
  intros Hdvp Hd. unfold store_key. rewrite Hdvp.
  destruct (JS.split_first ws filePath) as [[before after]|] eqn:Hs.
  - rewrite (replace_dollar_free _ _ _ _ _ Hd Hs).
    symmetry. by apply split_first_Some.
  - unfold JS.replace. by rewrite Hs.
Qed.

End PathProperties.

Lemma X10_store_key_container_prefix_witness :
  JS.dollar_free Scenario.root = true /\
  store_key Scenario.root Scenario.settings "/app/src/Bar.php" = Scenario.bar.
Proof.
  split; [reflexivity|].
  apply (X10_store_key_container_prefix Scenario.root Scenario.settings
           "/src/Bar.php"%string eq_refl).
Defined.

Lemma X11_save_replaces_entry_witness :
  runAnalysis Scenario.root Scenario.settings
    (Scenario.parses_as Scenario.bar_report) Scenario.prints Scenario.file_uri
    false (Some Scenario.bar) Scenario.flagged_store =
  {| store := <[Scenario.file_uri Scenario.bar :=
                  record_of <$> [Scenario.undefined_method]]>
                Scenario.flagged_store;
     ui := [];
     settled := Resolved (Some true) |}.
Proof.
  apply (X11_save_replaces_entry Scenario.root Scenario.settings
           (Scenario.parses_as Scenario.bar_report) Scenario.prints
           Scenario.file_uri
           false "/src/Bar.php"%string [Scenario.undefined_method]
           Scenario.bar_report Scenario.flagged_store);
    try reflexivity.
  - discriminate.
  - constructor; [reflexivity|constructor].
  - repeat constructor; discriminate.
Defined.

Lemma X12_save_without_findings_witness :
  runAnalysis Scenario.root Scenario.settings
    (Scenario.parses_as Scenario.clean_report) Scenario.prints Scenario.file_uri
    false (Some Scenario.foo) Scenario.flagged_store =
  {| store := Scenario.flagged_store; ui := []; settled := Resolved (Some true) |}.
Proof.
  apply (X12_save_without_findings Scenario.root Scenario.settings
           (Scenario.parses_as Scenario.clean_report) Scenario.prints
           Scenario.file_uri
           false Scenario.foo Scenario.clean_report
           [(Scenario.foo_reported, FileObject (Messages []))]
           Scenario.flagged_store);
    try reflexivity.
  - discriminate.
  - constructor; [reflexivity|constructor].
Defined.

Lemma X13_store_key_identity_witness :
  store_key Scenario.root
    {| phpCommand := "php"; command := "vendor/bin/phpstan analyse";
       watchGlob := "phpstan.neon"; dockerVolumePath := Scenario.root |}
    Scenario.foo = Scenario.foo.
Proof.
  apply (X13_store_key_identity Scenario.root
           {| phpCommand := "php"; command := "vendor/bin/phpstan analyse";
              watchGlob := "phpstan.neon"; dockerVolumePath := Scenario.root |}
           Scenario.foo); reflexivity.
Defined.

(** ** The registered handlers *)

Section TriggerProperties.

Context (JSON_parse : string -> option Report).
Context (Uri_file : string -> string).

Lemma runAnalysis_resume_store_ok
    (ws : string) (config : Config) (execa : string -> ExecResult)
    (check progress : bool) (filePath : option string) (dc : Store) :
  store_ok dc ->
  store_ok (store (runAnalysis_resume ws config JSON_parse execa Uri_file
                     check progress filePath dc)).
Proof.
  intros Hok. unfold runAnalysis_resume.
  destruct (invoke progress _) as [shown|text]; [done|].
  destruct (JSON_parse text) as [output|]; [|done].
  destruct (files output) as [entries|] eqn:Hf; [|done].
  destruct (single_file filePath).
  - pose proof (processOutput_store_ok ws config Uri_file output
                  (if (Z.of_nat (length entries) =? 0) && check
                   then delete (Uri_file (default EmptyString filePath)) dc
                   else dc)) as Hp.
    destruct (processOutput _ _ _ _ _) as [dc' s]. simpl in *.
    apply Hp. destruct (_ && _); [by apply store_ok_delete|done].
  - destruct (handle_store_settled ws config Uri_file output progress
                (if (Z.of_nat (length entries) =? 0) && check
                 then delete (Uri_file (default EmptyString filePath)) dc
                 else dc)) as [-> _].
    apply processOutput_store_ok, store_ok_empty.
Qed.

Lemma dispatch_fixed (execa : string -> ExecResult) (ev : Event) (st : Extension) :
  ext_ws (fst (dispatch JSON_parse execa Uri_file ev st)) = ext_ws st /\
  ext_watchGlob (fst (dispatch JSON_parse execa Uri_file ev st)) = ext_watchGlob st.
Proof.
  destruct ev as [[|] current| | |languageId fileName]; simpl; try done.
  by destruct (String.eqb languageId "php").
Qed.

Lemma dispatch_store_ok (execa : string -> ExecResult) (ev : Event) (st : Extension) :
  store_ok (ext_collection st) ->
  store_ok (ext_collection (fst (dispatch JSON_parse execa Uri_file ev st))).
Proof.
  intros Hok.
  destruct ev as [[|] current| | |languageId fileName]; simpl; try done.
  - by apply runAnalysis_resume_store_ok.
  - by apply runAnalysis_resume_store_ok.
  - destruct (String.eqb languageId "php"); simpl; [|done].
    by apply runAnalysis_resume_store_ok.
Qed.

Lemma dispatch_all_cons (ev : Event) (execa : string -> ExecResult)
    (rest : list (Event * (string -> ExecResult))) (st : Extension) :
  fst (dispatch_all JSON_parse Uri_file ((ev, execa) :: rest) st) =
    fst (dispatch_all JSON_parse Uri_file rest (fst (dispatch JSON_parse execa Uri_file ev st))).
Proof.
  simpl. destruct (dispatch JSON_parse execa Uri_file ev st) as [st1 shown1]. simpl.
  by destruct (dispatch_all JSON_parse Uri_file rest st1).
Qed.

Lemma activate_Activated (execa : string -> ExecResult)
    (workspaceFolders : option (list string)) (current : Config)
    (st : Extension) (shown : list UiEvent) :
  activate JSON_parse execa Uri_file workspaceFolders current = (Activated st, shown) ->
  exists folder rest,
    workspaceFolders = Some (folder :: rest) /\
    st = {| ext_ws := folder;
            ext_config := current;
            ext_collection :=
              store (runAnalysis folder current JSON_parse execa Uri_file true None ∅);
            ext_watchGlob := watchGlob current |}.
Proof.
  unfold activate.
  destruct workspaceFolders as [[|folder rest]|]; simpl; try done.
  destruct (settled (runAnalysis folder current JSON_parse execa Uri_file true None ∅));
    [|done].
  intros [= <- _]. by exists folder, rest.
Qed.

Lemma dispatch_config (execa : string -> ExecResult) (ev : Event) (st : Extension) :
  (forall c, ev <> DidChangeConfiguration true c) ->
  ext_config (fst (dispatch JSON_parse execa Uri_file ev st)) = ext_config st.
Proof.
  intros Hev.
  destruct ev as [[|] current| | |languageId fileName]; simpl; try done.
  - by destruct (Hev current).
  - by destruct (String.eqb languageId "php").
Qed.

Lemma dispatch_all_fixed (events : list (Event * (string -> ExecResult)))
    (st : Extension) :
  ext_ws (fst (dispatch_all JSON_parse Uri_file events st)) = ext_ws st /\
  ext_watchGlob (fst (dispatch_all JSON_parse Uri_file events st)) = ext_watchGlob st /\
  ((forall ev answer c, (ev, answer) ∈ events -> ev <> DidChangeConfiguration true c) ->
   ext_config (fst (dispatch_all JSON_parse Uri_file events st)) = ext_config st).
Proof.
  revert st; induction events as [|[ev answer] events IH]; intros st; [done|].
  rewrite dispatch_all_cons.
  destruct (IH (fst (dispatch JSON_parse answer Uri_file ev st))) as (Hws & Hglob & Hcfg).
  destruct (dispatch_fixed answer ev st) as [Hws' Hglob'].
  split; [congruence|]. split; [congruence|].
  intros Hev. rewrite Hcfg.
  - apply dispatch_config. intros c. apply (Hev ev answer c). by left.
  - intros ev' answer' c Hin. apply (Hev ev' answer' c). by right.
Qed.

Lemma dispatch_all_store_ok (events : list (Event * (string -> ExecResult)))
    (st : Extension) :
  store_ok (ext_collection st) ->
  store_ok (ext_collection (fst (dispatch_all JSON_parse Uri_file events st))).
Proof.
  revert st; induction events as [|[ev answer] events IH]; intros st Hok; [done|].
  rewrite dispatch_all_cons. by apply IH, dispatch_store_ok.
Qed.

(** X14: once the extension is active, no event changes the workspace
    root or the glob of the file watcher: the watcher keeps the
    [watchGlob] that was configured at activation, also after a change of
    configuration; and the settings change only through such a change. *)
Theorem X14_watcher_and_root_fixed
    (execa : string -> ExecResult)
    (workspaceFolders : option (list string)) (current : Config)
    (st : Extension) (shown : list UiEvent)
    (events : list (Event * (string -> ExecResult))) :
  activate JSON_parse execa Uri_file workspaceFolders current = (Activated st, shown) ->
  ext_watchGlob (fst (dispatch_all JSON_parse Uri_file events st)) = watchGlob current /\
  Some (ext_ws (fst (dispatch_all JSON_parse Uri_file events st))) = workspaceFolders ≫= head /\
  ((forall ev answer c, (ev, answer) ∈ events -> ev <> DidChangeConfiguration true c) ->
   ext_config (fst (dispatch_all JSON_parse Uri_file events st)) = current).
Proof.
  intros Hact.
  destruct (activate_Activated _ _ _ _ _ Hact) as (folder & rest & -> & Hst).
  destruct (dispatch_all_fixed events st) as (Hws & Hglob & Hcfg).
  rewrite Hws, Hglob. subst st. simpl. split; [done|]. split; [done|].
  intros Hev. by rewrite (Hcfg Hev).
Qed.

(** X15: what the first analysis decides at activation. When the tool
    prints text that does not parse, activation is rejected before any
    handler is registered; when the tool fails with stderr alone, the
    extension shows the error and is active all the same, with an empty
    collection. *)
Theorem X15_activate_first_analysis
    (execa : string -> ExecResult) (folder : string) (rest : list string)
    (current : Config) :
  (forall out,
     execa (phpCommand current +:+ " " +:+ command current) = ExecOk out ->
     JSON_parse out = None ->
     activate JSON_parse execa Uri_file (Some (folder :: rest)) current =
       (ActivationRejected SyntaxError ∅, [])) /\
  (forall stdout err,
     execa (phpCommand current +:+ " " +:+ command current)
       = ExecaError stdout (Some err) ->
     JS.truthy err = true ->
     JS.truthy_opt stdout = false ->
     activate JSON_parse execa Uri_file (Some (folder :: rest)) current =
       (Activated {| ext_ws := folder;
                     ext_config := current;
                     ext_collection := ∅;
                     ext_watchGlob := watchGlob current |},
        [ProgressReport None 100; ShowErrorMessage ("Phpstan: " +:+ err)])) /\
  activate JSON_parse execa Uri_file None current = (NoWorkspaceFolder, []) /\
  activate JSON_parse execa Uri_file (Some []) current = (NoWorkspaceFolder, []).
Proof.
  split; [|split; [|split; reflexivity]].
  - intros out He Hp.
    unfold activate, progressAnalyze, runAnalysis, runAnalysis_resume, invoke.
    simpl. by rewrite He, Hp.
  - intros stdout err He Herr Hout.
    unfold activate, progressAnalyze, runAnalysis, runAnalysis_resume, invoke.
    simpl. rewrite He. simpl. by rewrite Herr, Hout.
Qed.

(** X16: from activation on, whatever events are handled, every key of
    the collection holds at least one record, and every record has a
    range that the editor accepts (one line, not negative, from column 0 to
    the length of its message), severity error, the product's name as
    source, and the documentation link of its rule. *)
Theorem X16_collection_well_formed
    (execa : string -> ExecResult)
    (workspaceFolders : option (list string)) (current : Config)
    (st : Extension) (shown : list UiEvent)
    (events : list (Event * (string -> ExecResult))) :
  activate JSON_parse execa Uri_file workspaceFolders current = (Activated st, shown) ->
  store_ok (ext_collection (fst (dispatch_all JSON_parse Uri_file events st))).
Proof.
  intros Hact.
  destruct (activate_Activated _ _ _ _ _ Hact) as (folder & rest & _ & ->).
  apply dispatch_all_store_ok. simpl.
  apply runAnalysis_resume_store_ok, store_ok_empty.
Qed.

(** X17: a pass keeps the collection well formed whatever the flag that
    was computed before the tool was started, hence also when another
    pass changed the collection in the meantime. *)
Theorem X17_pass_keeps_collection_well_formed
    (ws : string) (config : Config) (execa : string -> ExecResult)
    (check progress : bool) (filePath : option string) (dc : Store) :
  store_ok dc ->
  store_ok (store (runAnalysis_resume ws config JSON_parse execa Uri_file
                     check progress filePath dc)).
Proof. apply runAnalysis_resume_store_ok. Qed.

End TriggerProperties.

(** The settings are changed to watch another file, then the command is
    run: the watcher still has the glob of the activation. *)
Lemma X14_watcher_and_root_fixed_witness :
  let renamed :=
    {| phpCommand := "php";
       command := "vendor/bin/phpstan analyse --error-format=json";
       watchGlob := "phpstan.dist.neon";
       dockerVolumePath := "/app" |} in
  let st :=
    {| ext_ws := Scenario.root;
       ext_config := Scenario.settings;
       ext_collection := Scenario.flagged_store;
       ext_watchGlob := "phpstan.neon" |} in
  fst (activate (Scenario.parses_as Scenario.report) Scenario.prints Scenario.file_uri
         (Some [Scenario.root]) Scenario.settings) = Activated st /\
  ext_watchGlob
    (fst (dispatch_all (Scenario.parses_as Scenario.report) Scenario.file_uri
            [(DidChangeConfiguration true renamed, Scenario.prints);
             (AnalyzeCommand, Scenario.prints)] st)) = "phpstan.neon"%string /\
  ext_config
    (fst (dispatch_all (Scenario.parses_as Scenario.report) Scenario.file_uri
            [(DidSaveTextDocument "php" Scenario.foo, Scenario.prints);
             (DidChangeConfiguration false renamed, Scenario.prints)] st))
    = Scenario.settings.
Proof.
  intros renamed st.
  assert (Hact : activate (Scenario.parses_as Scenario.report) Scenario.prints Scenario.file_uri
                   (Some [Scenario.root]) Scenario.settings =
                 (Activated st, [ProgressReport (Some "found 1 violations"%string) 100]))
    by reflexivity.
  split; [by rewrite Hact|]. split.
  - apply (X14_watcher_and_root_fixed (Scenario.parses_as Scenario.report)
             Scenario.file_uri Scenario.prints (Some [Scenario.root]) Scenario.settings st _
             [(DidChangeConfiguration true renamed, Scenario.prints);
              (AnalyzeCommand, Scenario.prints)] Hact).
  - apply (X14_watcher_and_root_fixed (Scenario.parses_as Scenario.report)
             Scenario.file_uri Scenario.prints (Some [Scenario.root]) Scenario.settings st _
             [(DidSaveTextDocument "php" Scenario.foo, Scenario.prints);
              (DidChangeConfiguration false renamed, Scenario.prints)] Hact).
    intros ev answer c Hin.
    apply elem_of_cons in Hin as [[= -> _]|Hin]; [discriminate|].
    apply list_elem_of_singleton in Hin as [= -> _]. discriminate.
Defined.

(** A tool that prints text that does not parse, and a tool that only
    complains on stderr. *)
Lemma X15_activate_first_analysis_witness :
  activate (fun _ => None) Scenario.prints Scenario.file_uri (Some [Scenario.root]) Scenario.settings =
    (ActivationRejected SyntaxError ∅, []) /\
  activate (Scenario.parses_as Scenario.report)
    (Scenario.answers (ExecaError None (Some "Config file not found."%string)))
    Scenario.file_uri (Some [Scenario.root]) Scenario.settings =
    (Activated {| ext_ws := Scenario.root;
                  ext_config := Scenario.settings;
                  ext_collection := ∅;
                  ext_watchGlob := "phpstan.neon" |},
     [ProgressReport None 100;
      ShowErrorMessage "Phpstan: Config file not found."]).
Proof.
  split.
  - apply (proj1 (X15_activate_first_analysis (fun _ => None) Scenario.file_uri Scenario.prints
                    Scenario.root [] Scenario.settings) "{...}"%string);
      reflexivity.
  - apply (proj1 (proj2 (X15_activate_first_analysis
                    (Scenario.parses_as Scenario.report) Scenario.file_uri
                    (Scenario.answers (ExecaError None (Some "Config file not found."%string)))
                    Scenario.root [] Scenario.settings))
             None "Config file not found."%string); reflexivity.
Defined.

(** The collection after activation, a save of [foo] answered by a report
    without violation, and a run of the command answered by a broken
    report. *)
Lemma X16_collection_well_formed_witness :
  let st :=
    {| ext_ws := Scenario.root;
       ext_config := Scenario.settings;
       ext_collection := Scenario.flagged_store;
       ext_watchGlob := "phpstan.neon" |} in
  store_ok
    (ext_collection
       (fst (dispatch_all (Scenario.parses_as Scenario.report) Scenario.file_uri
               [(DidSaveTextDocument "php" Scenario.foo, Scenario.prints);
                (AnalyzeCommand, Scenario.answers (OtherError "ENOENT"))] st))).
Proof.
  intros st.
  apply (X16_collection_well_formed (Scenario.parses_as Scenario.report)
           Scenario.file_uri Scenario.prints (Some [Scenario.root]) Scenario.settings st
           [ProgressReport (Some "found 1 violations"%string) 100]).
  reflexivity.
Defined.

(** A save of [foo] that resumes with the flag set, on a report with no
    file. *)
Lemma X17_pass_keeps_collection_well_formed_witness :
  store_ok Scenario.flagged_store /\
  store_ok
    (store (runAnalysis_resume Scenario.root Scenario.settings
              (Scenario.parses_as Scenario.empty_report) Scenario.prints
              Scenario.file_uri true false (Some Scenario.foo) Scenario.flagged_store)).
Proof.
  assert (Hok : store_ok Scenario.flagged_store).
  { intros k ds. unfold Scenario.flagged_store.
    intros [_ <-]%lookup_singleton_Some. split; [discriminate|].
    constructor; [|constructor].
    unfold record_ok. simpl. repeat split; try reflexivity. discriminate. }
  split; [exact Hok|].
  apply (X17_pass_keeps_collection_well_formed
           (Scenario.parses_as Scenario.empty_report) Scenario.file_uri
           Scenario.root Scenario.settings Scenario.prints
           true false (Some Scenario.foo) Scenario.flagged_store Hok).
Defined.

(** ** Output that does not parse *)

Section UnparsableOutput.

Context (ws : string) (config : Config).
Context (JSON_parse : string -> option Report) (execa : string -> ExecResult).
Context (Uri_file : string -> string).

(** X18: when the text the tool printed does not parse, whether the tool
    succeeded or failed, the pass is rejected with a syntax error before
    it touches the store, and it tells the user nothing, not even through
    the progress object. *)
Theorem X18_runAnalysis_unparsable_output
    (progress : bool) (filePath : option string) (dc : Store) (out : string) :
  JS.truthy out = true ->
  JSON_parse out = None ->
  (exists stderr,
     execa (prepareCommand ws config filePath) = ExecaError (Some out) stderr) \/
  execa (prepareCommand ws config filePath) = ExecOk out ->
  runAnalysis ws config JSON_parse execa Uri_file progress filePath dc =
    {| store := dc; ui := []; settled := Rejected SyntaxError |}.
Proof.
  intros Ht Hp He. unfold runAnalysis, runAnalysis_resume, invoke.
  destruct He as [[stderr ->]| ->]; simpl.
  - rewrite Ht, andb_false_r. by rewrite Hp.
  - by rewrite Hp.
Qed.

End UnparsableOutput.

(** A tool that exits with an error code after printing a PHP warning in
    front of its report. *)
Lemma X18_runAnalysis_unparsable_output_witness :
  runAnalysis Scenario.root Scenario.settings (fun _ => None)
    (Scenario.answers (ExecaError (Some "Warning: {...}"%string) None))
    Scenario.file_uri true None Scenario.flagged_store =
  {| store := Scenario.flagged_store; ui := []; settled := Rejected SyntaxError |}.
Proof.
  apply (X18_runAnalysis_unparsable_output Scenario.root Scenario.settings
           (fun _ => None)
           (Scenario.answers (ExecaError (Some "Warning: {...}"%string) None))
           Scenario.file_uri
           true None Scenario.flagged_store "Warning: {...}"%string);
    [reflexivity|reflexivity|].
  left. by exists None.
Defined.
